(** * crypto_monitor: lifecycle of [CryptoMonitorApp] (src/crypto_monitor/main.py)

    A shallow embedding of [CryptoMonitorApp.__init__], [_setup_signal_handlers],
    [start], [cleanup] and the [__main__] block, and the properties of the
    startup and shutdown paths.

    The collaborators ([TradeModel], [DatabaseManager], [WebSocketController],
    ...) are imported by main.py from other modules: they are taken here as a
    parameter, any function of an opaque world, that may return a value or
    raise.  What main.py itself does (attribute reads and writes on [self],
    try/except/finally, the signal table, the atexit hooks, the keep-alive
    loop) is modelled as the code has it.

    Assumptions of the model:
    - a call into a collaborator ends, by returning or by raising;
    - the console view's [print_*] methods and the builtin [print] show their
      message and do not raise;
    - reading the [running] attribute of the visualizer (line 136) gives its
      flag and does not raise;
    - a signal or an asynchronous exception reaches the main thread only
      while it sleeps in the keep-alive loop of [start];
    - symbols are ASCII strings. *)

From Stdlib Require Import String Ascii List ZArith Bool Lia DecimalString.
Import ListNotations.
Open Scope string_scope.
Set Implicit Arguments.

(** ** Python values, exceptions and signals *)

(** The exceptions the program distinguishes.  [Exception] stands for an
    instance of any subclass of Python's [Exception] a collaborator may raise,
    with [str(e) = msg]; [AttributeError] is the one main.py itself can raise.
    [KeyboardInterrupt] and [SystemExit] derive from [BaseException] only, so
    an [except Exception] clause does not catch them. *)
Inductive exn : Type :=
| Exception (msg : string)
| AttributeError (attr : string)
| KeyboardInterrupt
| SystemExit (code : Z).

Definition is_Exception (e : exn) : bool :=
  match e with
  | Exception _ | AttributeError _ => true
  | KeyboardInterrupt | SystemExit _ => false
  end.

Definition is_KeyboardInterrupt (e : exn) : bool :=
  match e with
  | KeyboardInterrupt => true
  | _ => false
  end.

(** [str(e)], as the f-strings of [cleanup] format it. *)
Definition str (e : exn) : string :=
  match e with
  | Exception msg => msg
  | AttributeError attr =>
      "'CryptoMonitorApp' object has no attribute '" ++ attr ++ "'"
  | KeyboardInterrupt => ""
  | SystemExit code => NilZero.string_of_int (Z.to_int code)
  end.

Inductive signum : Type := SIGINT | SIGTERM.

(** Why a computation stops without returning or raising: the main thread is
    still asleep in the keep-alive loop when the observed schedule ends, or the
    process was killed by a signal with its default disposition. *)
Inductive halt : Type :=
| Asleep
| Killed (sig : signum).

Inductive result (A : Type) : Type :=
| Ret (a : A)
| Raise (e : exn)
| Halt (h : halt).
Arguments Raise {A} e.
Arguments Halt {A} h.

(** The parsed command line ([argparse.Namespace]) with the four fields
    [__init__] reads. *)
Module Args.

Record t : Type := mk {
  db_name : string;
  symbols : list string;
  viz : bool;
  batch_size : Z
}.

End Args.

Inductive value : Type :=
| VNone
| VBool (b : bool)
| VArgs (a : Args.t).

(** Truth value of [if success:]. *)
Definition truthy (v : value) : bool :=
  match v with
  | VNone => false
  | VBool b => b
  | VArgs _ => true
  end.

(** [s.upper()] on ASCII strings (ticker symbols); other bytes are kept. *)
Definition upper_ascii (c : ascii) : ascii :=
  let n := nat_of_ascii c in
  if (97 <=? n)%nat && (n <=? 122)%nat then ascii_of_nat (n - 32) else c.

Fixpoint upper (s : string) : string :=
  match s with
  | EmptyString => EmptyString
  | String c r => String (upper_ascii c) (upper r)
  end.

(** [sep.join(l)] *)
Definition join (sep : string) (l : list string) : string := String.concat sep l.

(** ** Calls into the collaborators and the observable trace *)

(** Every call main.py makes into imported code, with the arguments it
    passes.  A list argument is recorded with the content the list object has
    when the call is made. *)
Inductive call : Type :=
| parse_arguments
| TradeModel (symbols : list string)
| OrderBookModel (symbols : list string)
| DatabaseManager (db_name : string) (batch_size : Z)
| ConsoleView (version : string)
| GuiView
| VisualizationView (symbols : list string)
| WebSocketController
| CommandController
| set_get_database_manager          (* line 66, attribute store on cmd_controller *)
| cmd_controller_start_listener
| cmd_controller_stop
| ws_controller_connect
| ws_controller_close
| visualizer_start
| visualizer_stop
| db_manager_flush
| db_manager_close.

(** What happens while the main thread is inside one [time.sleep(1)]. *)
Inductive tick : Type :=
| Quiet                      (* the second elapses *)
| Deliver (sig : signum)     (* a signal arrives *)
| Throw (e : exn).           (* an exception is raised asynchronously in the main thread *)

(** How a collaborator call ends: it is assumed to end. *)
Inductive reply : Type :=
| Returns (v : value)
| Raises (e : exn).

Inductive event : Type :=
| Call (c : call) (r : reply)             (* a collaborator call and how it ended *)
| Get_running (b : bool)                  (* read of [self.visualizer.running] *)
| print_info (msg : string) (persistent : bool)   (* [true]: persistent=True is passed *)
| print_success (msg : string)
| print_error (msg : string)
| print (msg : string)                    (* the builtin, to stdout *)
| time_sleep (t : tick).

(** ** The store *)

(** A collaborator object held in an attribute of [self]. *)
Inductive object : Type := Object.
(** The reference held in [self.symbols] to the list built at line 31. *)
Inductive list_ref : Type := SymbolsList.

(** [self.__dict__]: an attribute is [None] until [__init__] assigns it, so
    [hasattr(self, 'x')] is [x self <> None]. *)
Record CryptoMonitorApp : Type := mkApp {
  args : option Args.t;
  db_name : option string;
  symbols : option list_ref;
  enable_viz : option bool;
  batch_size : option Z;
  trade_model : option object;
  order_book_model : option object;
  db_manager : option object;
  console_view : option object;
  gui_view : option object;
  visualizer : option object;
  ws_controller : option object;
  cmd_controller : option object
}.

Definition blank : CryptoMonitorApp :=
  mkApp None None None None None None None None None None None None None.

Definition hasattr {A : Type} (attribute : option A) : bool :=
  match attribute with
  | Some _ => true
  | None => false
  end.

(** [__init__] ran to its end: every attribute is assigned. *)
Definition constructed (a : CryptoMonitorApp) : bool :=
  hasattr (args a) && hasattr (db_name a) && hasattr (symbols a) &&
  hasattr (enable_viz a) && hasattr (batch_size a) &&
  hasattr (trade_model a) && hasattr (order_book_model a) &&
  hasattr (db_manager a) && hasattr (console_view a) && hasattr (gui_view a) &&
  hasattr (visualizer a) && hasattr (ws_controller a) && hasattr (cmd_controller a).

(** What the interpreter does with a signal: what it does at startup
    (SIGINT raises KeyboardInterrupt in the main thread, SIGTERM kills the
    process), or the handler installed by [signal.signal]. *)
Inductive disposition : Type :=
| Initial
| signal_handler_closure.    (* [signal_handler] of [_setup_signal_handlers] *)

Inductive hook : Type := cleanup_hook.   (* the bound method [self.cleanup] *)

Section Program.

(** State of the imported modules, opaque to main.py. *)
Variable W : Type.

(** What the collaborators can reach: their own state and the list object
    that [__init__] hands to three of them ([symbols_list] is that object's
    content; it is empty until line 31 builds it). *)
Record shared : Type := mkShared {
  ext : W;
  symbols_list : list string
}.

Record state : Type := mkState {
  self : CryptoMonitorApp;
  world : shared;
  sigint : disposition;
  sigterm : disposition;
  exit_hooks : list hook      (* atexit, in registration order *)
}.

(** The imported code: the outcome of each call and its effect on the shared
    store, the [running] flag of the visualizer, and the constant
    [APP_VERSION]. *)
Record collaborators : Type := mkCollab {
  invoke : call -> shared -> reply * shared;
  running : shared -> bool;
  APP_VERSION : string
}.

(** ** The monad: store, exceptions and trace *)

Record outcome (A : Type) : Type := Out {
  res : result A;
  post : state;
  evs : list event
}.

Definition M (A : Type) : Type := state -> outcome A.

Definition ret {A} (a : A) : M A := fun s => Out (Ret a) s [].

Definition bind {A B} (m : M A) (f : A -> M B) : M B :=
  fun s =>
    match m s with
    | Out (Ret a) s1 t1 =>
        match f a s1 with
        | Out r s2 t2 => Out r s2 (t1 ++ t2)
        end
    | Out (Raise e) s1 t1 => Out (Raise e) s1 t1
    | Out (Halt h) s1 t1 => Out (Halt h) s1 t1
    end.

Definition raise {A} (e : exn) : M A := fun s => Out (Raise e) s [].
Definition stop {A} (h : halt) : M A := fun s => Out (Halt h) s [].
Definition emit (ev : event) : M unit := fun s => Out (Ret tt) s [ev].
Definition get : M state := fun s => Out (Ret s) s [].

Notation "x <- m ;; k" := (bind m (fun x => k))
  (at level 61, m at next level, right associativity).
Notation "m ;; k" := (bind m (fun _ => k))
  (at level 61, right associativity).

(** [try: body except Exception as e: handler(e)] *)
Definition try_except_Exception (body : M unit) (handler : exn -> M unit) : M unit :=
  fun s =>
    match body s with
    | Out (Raise e) s1 t1 =>
        if is_Exception e
        then match handler e s1 with
             | Out r s2 t2 => Out r s2 (t1 ++ t2)
             end
        else Out (Raise e) s1 t1
    | o => o
    end.

(** [try: body except KeyboardInterrupt: handler].  *)
Definition try_except_KeyboardInterrupt (body : M unit) (handler : M unit) : M unit :=
  fun s =>
    match body s with
    | Out (Raise e) s1 t1 =>
        if is_KeyboardInterrupt e
        then match handler s1 with
             | Out r s2 t2 => Out r s2 (t1 ++ t2)
             end
        else Out (Raise e) s1 t1
    | o => o
    end.

(** [try: body finally: final].  When the body halts nothing runs after it.
    An exception leaving [final] replaces the pending one. *)
Definition try_finally (body : M unit) (final : M unit) : M unit :=
  fun s =>
    match body s with
    | Out (Halt h) s1 t1 => Out (Halt h) s1 t1
    | Out r s1 t1 =>
        match final s1 with
        | Out (Ret _) s2 t2 => Out r s2 (t1 ++ t2)
        | Out r2 s2 t2 => Out r2 s2 (t1 ++ t2)
        end
    end.

(** ** Attribute access on [self] *)

Definition getattr {A} (name : string) (attribute : CryptoMonitorApp -> option A) : M A :=
  fun s =>
    match attribute (self s) with
    | Some v => Out (Ret v) s []
    | None => Out (Raise (AttributeError name)) s []
    end.

Definition update_self (f : CryptoMonitorApp -> CryptoMonitorApp) : M unit :=
  fun s => Out (Ret tt) (mkState (f (self s)) (world s) (sigint s) (sigterm s) (exit_hooks s)) [].

Definition set_args v a := mkApp (Some v) (db_name a) (symbols a) (enable_viz a) (batch_size a) (trade_model a) (order_book_model a) (db_manager a) (console_view a) (gui_view a) (visualizer a) (ws_controller a) (cmd_controller a).
Definition set_db_name v a := mkApp (args a) (Some v) (symbols a) (enable_viz a) (batch_size a) (trade_model a) (order_book_model a) (db_manager a) (console_view a) (gui_view a) (visualizer a) (ws_controller a) (cmd_controller a).
Definition set_symbols v a := mkApp (args a) (db_name a) (Some v) (enable_viz a) (batch_size a) (trade_model a) (order_book_model a) (db_manager a) (console_view a) (gui_view a) (visualizer a) (ws_controller a) (cmd_controller a).
Definition set_enable_viz v a := mkApp (args a) (db_name a) (symbols a) (Some v) (batch_size a) (trade_model a) (order_book_model a) (db_manager a) (console_view a) (gui_view a) (visualizer a) (ws_controller a) (cmd_controller a).
Definition set_batch_size v a := mkApp (args a) (db_name a) (symbols a) (enable_viz a) (Some v) (trade_model a) (order_book_model a) (db_manager a) (console_view a) (gui_view a) (visualizer a) (ws_controller a) (cmd_controller a).
Definition set_trade_model v a := mkApp (args a) (db_name a) (symbols a) (enable_viz a) (batch_size a) (Some v) (order_book_model a) (db_manager a) (console_view a) (gui_view a) (visualizer a) (ws_controller a) (cmd_controller a).
Definition set_order_book_model v a := mkApp (args a) (db_name a) (symbols a) (enable_viz a) (batch_size a) (trade_model a) (Some v) (db_manager a) (console_view a) (gui_view a) (visualizer a) (ws_controller a) (cmd_controller a).
Definition set_db_manager v a := mkApp (args a) (db_name a) (symbols a) (enable_viz a) (batch_size a) (trade_model a) (order_book_model a) (Some v) (console_view a) (gui_view a) (visualizer a) (ws_controller a) (cmd_controller a).
Definition set_console_view v a := mkApp (args a) (db_name a) (symbols a) (enable_viz a) (batch_size a) (trade_model a) (order_book_model a) (db_manager a) (Some v) (gui_view a) (visualizer a) (ws_controller a) (cmd_controller a).
Definition set_gui_view v a := mkApp (args a) (db_name a) (symbols a) (enable_viz a) (batch_size a) (trade_model a) (order_book_model a) (db_manager a) (console_view a) (Some v) (visualizer a) (ws_controller a) (cmd_controller a).
Definition set_visualizer v a := mkApp (args a) (db_name a) (symbols a) (enable_viz a) (batch_size a) (trade_model a) (order_book_model a) (db_manager a) (console_view a) (gui_view a) (Some v) (ws_controller a) (cmd_controller a).
Definition set_ws_controller v a := mkApp (args a) (db_name a) (symbols a) (enable_viz a) (batch_size a) (trade_model a) (order_book_model a) (db_manager a) (console_view a) (gui_view a) (visualizer a) (Some v) (cmd_controller a).
Definition set_cmd_controller v a := mkApp (args a) (db_name a) (symbols a) (enable_viz a) (batch_size a) (trade_model a) (order_book_model a) (db_manager a) (console_view a) (gui_view a) (visualizer a) (ws_controller a) (Some v).

(** ** Calls *)

Variable env : collaborators.

Definition with_world (w : shared) (s : state) : state :=
  mkState (self s) w (sigint s) (sigterm s) (exit_hooks s).

(** A call into imported code: the collaborator decides the reply and the new
    shared store; the call and its reply are recorded. *)
Definition invoke_call (c : call) : M value :=
  fun s =>
    let (r, w) := invoke env c (world s) in
    let s' := with_world w s in
    match r with
    | Returns v => Out (Ret v) s' [Call c r]
    | Raises e => Out (Raise e) s' [Call c r]
    end.

(** [self.visualizer.running]: the flag is read from the collaborator's
    state; the read is taken not to raise. *)
Definition visualizer_running : M bool :=
  fun s => let b := running env (world s) in Out (Ret b) s [Get_running b].

(** Content of the list object [self.symbols] refers to. *)
Definition deref (r : list_ref) : M (list string) :=
  fun s => Out (Ret (symbols_list (world s))) s [].

(** [self.console_view.print_info(msg, persistent=p)] and the like: the
    attribute is read, then the message is shown.  The console view is the
    reporting channel and is taken not to raise. *)
Definition console_view_print_info (msg : string) (persistent : bool) : M unit :=
  _ <- getattr "console_view" console_view ;; emit (print_info msg persistent).
Definition console_view_print_success (msg : string) : M unit :=
  _ <- getattr "console_view" console_view ;; emit (print_success msg).
Definition console_view_print_error (msg : string) : M unit :=
  _ <- getattr "console_view" console_view ;; emit (print_error msg).

(** ** [CryptoMonitorApp.cleanup] (lines 117-152) *)

Definition stop_command_controller : M unit :=
  s <- get ;;
  if hasattr (cmd_controller (self s)) then
    try_except_Exception
      (_ <- getattr "cmd_controller" cmd_controller ;;
       _ <- invoke_call cmd_controller_stop ;;
       ret tt)
      (fun e => emit (print ("Error stopping command controller: " ++ str e)))
  else ret tt.

Definition close_websocket : M unit :=
  s <- get ;;
  if hasattr (ws_controller (self s)) then
    try_except_Exception
      (_ <- getattr "ws_controller" ws_controller ;;
       _ <- invoke_call ws_controller_close ;;
       ret tt)
      (fun e => emit (print ("Error closing WebSocket: " ++ str e)))
  else ret tt.

(** [hasattr(self, 'visualizer') and self.visualizer.running]: the flag is
    read only when the attribute is there. *)
Definition visualizer_is_running : M bool :=
  s <- get ;;
  if hasattr (visualizer (self s)) then
    _ <- getattr "visualizer" visualizer ;; visualizer_running
  else ret false.

Definition stop_visualization : M unit :=
  b <- visualizer_is_running ;;
  if b then
    try_except_Exception
      (_ <- getattr "visualizer" visualizer ;;
       _ <- invoke_call visualizer_stop ;;
       ret tt)
      (fun e => emit (print ("Error stopping visualization: " ++ str e)))
  else ret tt.

Definition flush_and_close_database : M unit :=
  s <- get ;;
  if hasattr (db_manager (self s)) then
    try_except_Exception
      (console_view_print_info "Flushing remaining database records..." false ;;
       _ <- getattr "db_manager" db_manager ;;
       _ <- invoke_call db_manager_flush ;;
       _ <- getattr "db_manager" db_manager ;;
       _ <- invoke_call db_manager_close ;;
       console_view_print_success "Database closed successfully.")
      (fun e => emit (print ("Error closing database: " ++ str e)))
  else ret tt.

Definition cleanup : M unit :=
  console_view_print_info "Cleaning up application resources..." false ;;
  stop_command_controller ;;
  close_websocket ;;
  stop_visualization ;;
  flush_and_close_database ;;
  console_view_print_info "Application shutdown complete." false.

(** ** [_setup_signal_handlers] (lines 74-82) *)

Definition newline : string := String (ascii_of_nat 10) EmptyString.

(** The closure [signal_handler(sig, frame)]; [sys.exit(0)] raises
    [SystemExit(0)]. *)
Definition signal_handler (sig : signum) : M unit :=
  emit (print (newline ++ "Received interrupt signal. Shutting down...")) ;;
  cleanup ;;
  raise (SystemExit 0).

(** [signal.signal(sig, signal_handler)] *)
Definition signal_signal (sig : signum) (d : disposition) : M unit :=
  fun s =>
    match sig with
    | SIGINT => Out (Ret tt) (mkState (self s) (world s) d (sigterm s) (exit_hooks s)) []
    | SIGTERM => Out (Ret tt) (mkState (self s) (world s) (sigint s) d (exit_hooks s)) []
    end.

Definition _setup_signal_handlers : M unit :=
  signal_signal SIGINT signal_handler_closure ;;
  signal_signal SIGTERM signal_handler_closure.

(** [atexit.register(f)] *)
Definition atexit_register (h : hook) : M unit :=
  fun s => Out (Ret tt) (mkState (self s) (world s) (sigint s) (sigterm s) (exit_hooks s ++ [h])) [].

(** ** [CryptoMonitorApp.__init__] (lines 19-72) *)

(** [ClassName(...)]: the constructor is called and the new object returned. *)
Definition construct (c : call) : M object :=
  _ <- invoke_call c ;; ret Object.

(** The list comprehension of line 31 builds a new list object. *)
Definition new_symbols_list (l : list string) : M list_ref :=
  fun s =>
    Out (Ret SymbolsList) (with_world (mkShared (ext (world s)) l) s) [].

Definition __init__ (args0 : option Args.t) : M unit :=
  (* self.args = args or parse_arguments() *)
  a <- match args0 with
       | Some a => ret a
       | None =>
           v <- invoke_call parse_arguments ;;
           match v with
           | VArgs a => ret a
           | _ => raise (AttributeError "db_name")
           end
       end ;;
  update_self (set_args a) ;;
  update_self (set_db_name (Args.db_name a)) ;;
  r <- new_symbols_list (map upper (Args.symbols a)) ;;
  update_self (set_symbols r) ;;
  update_self (set_enable_viz (Args.viz a)) ;;
  update_self (set_batch_size (Args.batch_size a)) ;;
  (* models *)
  r <- getattr "symbols" symbols ;; l <- deref r ;;
  o <- construct (TradeModel l) ;;
  update_self (set_trade_model o) ;;
  r <- getattr "symbols" symbols ;; l <- deref r ;;
  o <- construct (OrderBookModel l) ;;
  update_self (set_order_book_model o) ;;
  n <- getattr "db_name" db_name ;;
  b <- getattr "batch_size" batch_size ;;
  o <- construct (DatabaseManager n b) ;;
  update_self (set_db_manager o) ;;
  (* views *)
  o <- construct (ConsoleView (APP_VERSION env)) ;;
  update_self (set_console_view o) ;;
  o <- construct GuiView ;;
  update_self (set_gui_view o) ;;
  r <- getattr "symbols" symbols ;; l <- deref r ;;
  o <- construct (VisualizationView l) ;;
  update_self (set_visualizer o) ;;
  (* controllers *)
  _ <- getattr "trade_model" trade_model ;;
  _ <- getattr "order_book_model" order_book_model ;;
  _ <- getattr "db_manager" db_manager ;;
  _ <- getattr "console_view" console_view ;;
  _ <- getattr "visualizer" visualizer ;;
  o <- construct WebSocketController ;;
  update_self (set_ws_controller o) ;;
  _ <- getattr "trade_model" trade_model ;;
  _ <- getattr "gui_view" gui_view ;;
  _ <- getattr "console_view" console_view ;;
  _ <- getattr "visualizer" visualizer ;;
  _ <- getattr "ws_controller" ws_controller ;;
  o <- construct CommandController ;;
  update_self (set_cmd_controller o) ;;
  _ <- getattr "cmd_controller" cmd_controller ;;
  _ <- invoke_call set_get_database_manager ;;
  _setup_signal_handlers ;;
  atexit_register cleanup_hook.

(** ** [CryptoMonitorApp.start] (lines 84-115) *)

(** One [time.sleep(1)] of the main thread.  A delivered signal runs its
    handler in the main thread, inside the call. *)
Definition sleep (t : tick) : M unit :=
  emit (time_sleep t) ;;
  match t with
  | Quiet => ret tt
  | Throw e => raise e
  | Deliver sig =>
      s <- get ;;
      match (match sig with SIGINT => sigint s | SIGTERM => sigterm s end) with
      | signal_handler_closure => signal_handler sig
      | Initial =>
          match sig with
          | SIGINT => raise KeyboardInterrupt
          | SIGTERM => stop (Killed SIGTERM)
          end
      end
  end.

(** [while True: time.sleep(1)], run against what the environment does during
    each sleep.  The loop has no exit of its own: when the schedule is used
    up the main thread is still asleep. *)
Fixpoint keep_alive (schedule : list tick) : M unit :=
  match schedule with
  | [] => stop Asleep
  | t :: rest => sleep t ;; keep_alive rest
  end.

Definition start_visualization : M unit :=
  console_view_print_info "Starting 3D visualization..." false ;;
  _ <- getattr "visualizer" visualizer ;;
  success <- invoke_call visualizer_start ;;
  if truthy success then
    console_view_print_success
      "Visualization started. Open http://127.0.0.1:8050 in your browser."
  else
    console_view_print_error
      "Failed to start visualization. Make sure you have required packages installed.".

(** Lines 108-115: the guarded keep-alive loop. *)
Definition keep_main_thread_alive (schedule : list tick) : M unit :=
  try_finally
    (try_except_KeyboardInterrupt
       (keep_alive schedule)
       (console_view_print_info "Shutting down..." false))
    cleanup.

Definition help_line : string :=
  "Type 'help' for available commands, 'status' for connection info, or 'reconnect' to reset connection.".

(** Lines 86-106: the banner, the listener, the connection, the
    visualization when enabled, the help line. *)
Definition startup : M unit :=
  _ <- getattr "console_view" console_view ;;
  n <- getattr "db_name" db_name ;;
  emit (print_info ("Starting Cryptocurrency Market Monitor with database: " ++ n) true) ;;
  _ <- getattr "console_view" console_view ;;
  r <- getattr "symbols" symbols ;; l <- deref r ;;
  emit (print_info ("Tracking symbols: " ++ join ", " l) true) ;;
  _ <- getattr "cmd_controller" cmd_controller ;;
  _ <- invoke_call cmd_controller_start_listener ;;
  _ <- getattr "ws_controller" ws_controller ;;
  _ <- invoke_call ws_controller_connect ;;
  viz <- getattr "enable_viz" enable_viz ;;
  (if viz then start_visualization else ret tt) ;;
  console_view_print_info help_line true.

Definition start (schedule : list tick) : M unit :=
  startup ;;
  keep_main_thread_alive schedule.

(** ** The [__main__] block and interpreter exit *)

(** [app = CryptoMonitorApp(); app.start()] *)
Definition main (schedule : list tick) : M unit :=
  update_self (fun _ => blank) ;;
  __init__ None ;;
  start schedule.

Definition run_hook (h : hook) : M unit :=
  match h with
  | cleanup_hook => cleanup
  end.

(** The atexit machinery calls the hooks last registered first; an exception
    leaving a hook is reported by the interpreter and the next hook runs. *)
Fixpoint run_exit_hooks (hooks : list hook) : M unit :=
  match hooks with
  | [] => ret tt
  | h :: rest =>
      (fun s =>
         match run_hook h s with
         | Out (Raise _) s1 t1 => Out (Ret tt) s1 t1
         | o => o
         end) ;;
      run_exit_hooks rest
  end.

(** How the process ends. *)
Inductive termination : Type :=
| Exit (code : Z)              (* normal end, or [SystemExit(code)] *)
| Uncaught (e : exn)           (* traceback of another exception *)
| Stopped (h : halt).

Record process : Type := Proc {
  status : termination;
  final : state;
  trace : list event
}.

(** The program run as a script.  The atexit hooks run when the main module
    has returned or raised, not when the process was killed or never left the
    loop. *)
Definition run (schedule : list tick) (s : state) : process :=
  match main schedule s with
  | Out (Halt h) s1 t1 => Proc (Stopped h) s1 t1
  | Out r s1 t1 =>
      match run_exit_hooks (rev (exit_hooks s1)) s1 with
      | Out (Halt h) s2 t2 => Proc (Stopped h) s2 (t1 ++ t2)
      | Out _ s2 t2 =>
          Proc match r with
               | Raise (SystemExit code) => Exit code
               | Raise e => Uncaught e
               | _ => Exit 0
               end s2 (t1 ++ t2)
      end
  end.

End Program.

(** ** Reading traces *)

(** The collaborator calls of a trace, in order. *)
Fixpoint calls (tr : list event) : list call :=
  match tr with
  | [] => []
  | Call c _ :: rest => c :: calls rest
  | _ :: rest => calls rest
  end.

(** The order the teardown calls are written in. *)
Definition teardown_order : list call :=
  [cmd_controller_stop; ws_controller_close; visualizer_stop;
   db_manager_flush; db_manager_close].

Definition call_eq_dec (c d : call) : {c = d} + {c <> d}.
Proof.
  decide equality;
    try apply (list_eq_dec string_dec); try apply string_dec; apply Z.eq_dec.
Defined.

Definition same_call (c d : call) : bool :=
  if call_eq_dec c d then true else false.

(** [subseq l p]: [l] is [p] with some elements left out, order kept. *)
Fixpoint subseq (l p : list call) : bool :=
  match l, p with
  | [], _ => true
  | _ :: _, [] => false
  | c :: l', d :: p' => if same_call c d then subseq l' p' else subseq l p'
  end.

(** How often a call is made in a trace. *)
Definition times (c : call) (tr : list event) : nat :=
  length (filter (same_call c) (calls tr)).

Definition called (c : call) (tr : list event) : Prop :=
  exists r, In (Call c r) tr.

(** Every exception a collaborator raised in the trace is an [Exception]. *)
Definition errors_only (tr : list event) : bool :=
  forallb (fun ev => match ev with
                     | Call _ (Raises e) => is_Exception e
                     | _ => true
                     end) tr.

(** The line [cleanup] prints when a teardown call raises. *)
Definition error_report (c : call) (e : exn) : string :=
  match c with
  | cmd_controller_stop => "Error stopping command controller: " ++ str e
  | ws_controller_close => "Error closing WebSocket: " ++ str e
  | visualizer_stop => "Error stopping visualization: " ++ str e
  | _ => "Error closing database: " ++ str e
  end.

(** What a guarded teardown call leaves in the trace, and how the guarded
    block ends. *)
Definition reply_events (c : call) (r : reply) : list event :=
  Call c r ::
  match r with
  | Raises e => if is_Exception e then [print (error_report c e)] else []
  | Returns _ => []
  end.

Definition reply_result (r : reply) : result unit :=
  match r with
  | Raises e => if is_Exception e then Ret tt else Raise e
  | Returns _ => Ret tt
  end.

(** ** Vocabulary of the properties *)

Definition starting : event := print_info "Cleaning up application resources..." false.
Definition complete : event := print_info "Application shutdown complete." false.
Definition flushing : event := print_info "Flushing remaining database records..." false.
Definition closed_ok : event := print_success "Database closed successfully.".
Definition received : event :=
  print (newline ++ "Received interrupt signal. Shutting down...").

(** The handler installed for a signal. *)
Definition handler_of {W} (sig : signum) (s : state W) : disposition :=
  match sig with
  | SIGINT => sigint s
  | SIGTERM => sigterm s
  end.

Definition is_Ret {A} (r : result A) : bool :=
  match r with
  | Ret _ => true
  | _ => false
  end.

Definition when (b : bool) (t : list event) : list event := if b then t else [].

Definition is_teardown_call (c : call) : bool :=
  match c with
  | cmd_controller_stop | ws_controller_close | visualizer_stop
  | db_manager_flush | db_manager_close => true
  | _ => false
  end.

Definition is_startup_call (c : call) : bool :=
  match c with
  | cmd_controller_start_listener | ws_controller_connect | visualizer_start => true
  | _ => false
  end.

(** The four guarded blocks of [cleanup]. *)
Inductive block : Type := Cmd | Ws | Viz | Db.

(** The call at the head of each block, and the attribute that guards it. *)
Definition step_call (b : block) : call :=
  match b with
  | Cmd => cmd_controller_stop
  | Ws => ws_controller_close
  | Viz => visualizer_stop
  | Db => db_manager_flush
  end.

Definition guard (b : block) (a : CryptoMonitorApp) : bool :=
  match b with
  | Cmd => hasattr (cmd_controller a)
  | Ws => hasattr (ws_controller a)
  | Viz => hasattr (visualizer a)
  | Db => hasattr (db_manager a)
  end.

Definition same_block (b b' : block) : bool :=
  match b, b' with
  | Cmd, Cmd | Ws, Ws | Viz, Viz | Db, Db => true
  | _, _ => false
  end.

(** The block an event can only come from ([print] lines and the console
    messages aside). *)
Definition owner (ev : event) : option block :=
  match ev with
  | Call cmd_controller_stop _ => Some Cmd
  | Call ws_controller_close _ => Some Ws
  | Get_running _ | Call visualizer_stop _ => Some Viz
  | Call db_manager_flush _ | Call db_manager_close _ | print_success _ => Some Db
  | _ => None
  end.

(** Each step with its component assigned was attempted: the call was made;
    for the visualizer, the flag was read and the call made when it was set. *)
Definition attempted (a : CryptoMonitorApp) (tr : list event) : Prop :=
  (hasattr (cmd_controller a) = true -> called cmd_controller_stop tr) /\
  (hasattr (ws_controller a) = true -> called ws_controller_close tr) /\
  (hasattr (visualizer a) = true ->
   exists b, In (Get_running b) tr /\ (b = true -> called visualizer_stop tr)) /\
  (hasattr (db_manager a) = true -> called db_manager_flush tr).

(** No teardown call is made more than once: what a shutdown that runs once
    per process would leave in the trace of the process. *)
Definition teardown_at_most_once (tr : list event) : Prop :=
  forall c, In c teardown_order -> (times c tr <= 1)%nat.

Section Vocabulary.

Context {W : Type}.
Variable env : collaborators W.

Definition run_block (b : block) : M W unit :=
  match b with
  | Cmd => stop_command_controller env
  | Ws => close_websocket env
  | Viz => stop_visualization env
  | Db => flush_and_close_database env
  end.

(** The state each block of [cleanup] starts from, and what it leaves in
    the trace there. *)
Definition block_state (s : state W) (b : block) : state W :=
  match b with
  | Cmd => s
  | Ws => post (stop_command_controller env s)
  | Viz => post (close_websocket env (post (stop_command_controller env s)))
  | Db => post (stop_visualization env
            (post (close_websocket env (post (stop_command_controller env s)))))
  end.

Definition block_evs (s : state W) (b : block) : list event :=
  evs (run_block b (block_state s b)).

(** [n] invocations of [cleanup], one after the other. *)
Fixpoint cleanup_n_times (n : nat) : M W unit :=
  match n with
  | O => ret tt
  | S k => bind (cleanup env) (fun _ => cleanup_n_times k)
  end.

(** Lines 109-113: the loop under its [except KeyboardInterrupt]. *)
Definition guarded_loop (schedule : list tick) : M W unit :=
  try_except_KeyboardInterrupt
    (keep_alive env schedule)
    (console_view_print_info "Shutting down..." false).

(** The collaborators leave the list they were handed as it is. *)
Definition keeps_symbols : Prop :=
  forall c w, symbols_list (snd (invoke env c w)) = symbols_list w.

(** [self], the signal table and the atexit hooks are left alone. *)
Definition untouched (s s' : state W) : Prop :=
  self s' = self s /\ sigint s' = sigint s /\ sigterm s' = sigterm s /\
  exit_hooks s' = exit_hooks s.

(** The list object and the reference to it are unchanged. *)
Definition same_symbols (s s' : state W) : Prop :=
  symbols_list (world s') = symbols_list (world s) /\
  symbols (self s') = symbols (self s).

(** [preserves R m]: the state [m] ends in is related by [R] to the one it
    started from. *)
Definition preserves (R : state W -> state W -> Prop) {A} (m : M W A) : Prop :=
  forall s, R s (post (m s)).

(** [within p m]: whatever the state, the calls [m] makes are calls of [p],
    in the order of [p]. *)
Definition within (p : list call) {A} (m : M W A) : Prop :=
  forall s, subseq (calls (evs (m s))) p = true.

(** [only P m]: every event [m] leaves in the trace satisfies [P]. *)
Definition only (P : event -> Prop) {A} (m : M W A) : Prop :=
  forall s ev, In ev (evs (m s)) -> P ev.

(** The calls [__init__] makes once the arguments are known, in the order of
    lines 36-66, with the arguments it passes. *)
Definition construction_order (a : Args.t) : list call :=
  [TradeModel (map upper (Args.symbols a));
   OrderBookModel (map upper (Args.symbols a));
   DatabaseManager (Args.db_name a) (Args.batch_size a);
   ConsoleView (APP_VERSION env);
   GuiView;
   VisualizationView (map upper (Args.symbols a));
   WebSocketController;
   CommandController;
   set_get_database_manager].

(** The new instance [CryptoMonitorApp()] starts from. *)
Definition new_instance (s : state W) : state W :=
  mkState blank (world s) (sigint s) (sigterm s) (exit_hooks s).

(** The state in which the script sleeps in the keep-alive loop: the
    application constructed, and started as far as the loop. *)
Definition in_loop (s : state W) : state W :=
  post (startup env (post (__init__ env None (new_instance s)))).

End Vocabulary.

(** ** A concrete environment

    Collaborators that always succeed, with the visualizer's [running] flag
    as their only state; and variants in which one call fails. *)
Module Demo.

Definition args : Args.t := Args.mk "crypto.db" ["btcusdt"; "ethusdt"] true 500.

Definition replies (failing : call -> option exn) (c : call) (w : shared bool)
  : reply * shared bool :=
  match failing c with
  | Some e => (Raises e, w)
  | None =>
      match c with
      | parse_arguments => (Returns (VArgs args), w)
      | visualizer_start => (Returns (VBool true), mkShared true (symbols_list w))
      | visualizer_stop => (Returns VNone, mkShared false (symbols_list w))
      | _ => (Returns VNone, w)
      end
  end.

Definition collab (failing : call -> option exn) : collaborators bool :=
  mkCollab (replies failing) (fun w => ext w) "1.0".

(** Every call succeeds. *)
Definition env : collaborators bool := collab (fun _ => None).

(** [ws_controller.connect()] raises. *)
Definition env_connect_fails : collaborators bool :=
  collab (fun c => match c with
                   | ws_controller_connect => Some (Exception "connection refused")
                   | _ => None
                   end).

(** [db_manager.flush()] raises. *)
Definition env_flush_fails : collaborators bool :=
  collab (fun c => match c with
                   | db_manager_flush => Some (Exception "database is locked")
                   | _ => None
                   end).

(** The constructor of [ConsoleView] raises. *)
Definition env_no_console : collaborators bool :=
  collab (fun c => match c with
                   | ConsoleView _ => Some (Exception "no terminal")
                   | _ => None
                   end).


(** [visualizer.start()] returns [False]. *)
Definition env_viz_fails : collaborators bool :=
  mkCollab (fun c w => match c with
                       | visualizer_start => (Returns (VBool false), w)
                       | _ => replies (fun _ => None) c w
                       end)
           (fun w => ext w) "1.0".

(** The interpreter before [__main__] runs. *)
Definition boot : state bool := mkState blank (mkShared false []) Initial Initial [].

(** The state once [CryptoMonitorApp()] has returned. *)
Definition ready : state bool := post (__init__ env None boot).

(** The same application with the visualizer running. *)
Definition visualizing : state bool :=
  mkState (self ready) (mkShared true (symbols_list (world ready)))
          (sigint ready) (sigterm ready) (exit_hooks ready).

(** The script, interrupted by SIGINT during its second sleep. *)
Definition interrupted : process bool := run env [Quiet; Deliver SIGINT] boot.

(** [start] on an application whose connection attempt raises. *)
Definition refused : outcome bool unit :=
  start env_connect_fails [Quiet] (post (__init__ env_connect_fails None boot)).

(** [ws_controller.close()] is interrupted from the keyboard. *)
Definition env_close_interrupted : collaborators bool :=
  collab (fun c => match c with
                   | ws_controller_close => Some KeyboardInterrupt
                   | _ => None
                   end).

End Demo.

(** * Properties *)

#[local] Arguments String.append : simpl never.
#[local] Arguments stop_command_controller : simpl never.
#[local] Arguments close_websocket : simpl never.
#[local] Arguments stop_visualization : simpl never.
#[local] Arguments flush_and_close_database : simpl never.
#[local] Arguments cleanup : simpl never.
#[local] Arguments startup : simpl never.
#[local] Arguments keep_main_thread_alive : simpl never.

Open Scope list_scope.

Create HintDb preserves.

Section Proofs.

Variable W : Type.
Variable env : collaborators W.

(** ** The monad *)

Lemma bind_eq A B (m : M W A) (f : A -> M W B) s :
  bind m f s =
  match res (m s) with
  | Ret a => Out (res (f a (post (m s)))) (post (f a (post (m s))))
                 (evs (m s) ++ evs (f a (post (m s))))
  | Raise e => Out (Raise e) (post (m s)) (evs (m s))
  | Halt h => Out (Halt h) (post (m s)) (evs (m s))
  end.
Proof.
  unfold bind. destruct (m s) as [[a|e|h] s1 t1]; simpl; auto.
  destruct (f a s1); reflexivity.
Qed.

Lemma evs_bind A B (m : M W A) (f : A -> M W B) s :
  evs (bind m f s) =
  evs (m s) ++ match res (m s) with
               | Ret a => evs (f a (post (m s)))
               | _ => []
               end.
Proof. rewrite bind_eq. destruct (res (m s)); simpl; auto using app_nil_r. Qed.

Lemma res_bind A B (m : M W A) (f : A -> M W B) s :
  res (bind m f s) =
  match res (m s) with
  | Ret a => res (f a (post (m s)))
  | Raise e => Raise e
  | Halt h => Halt h
  end.
Proof. rewrite bind_eq. destruct (res (m s)); reflexivity. Qed.

Lemma post_bind A B (m : M W A) (f : A -> M W B) s :
  post (bind m f s) =
  match res (m s) with
  | Ret a => post (f a (post (m s)))
  | _ => post (m s)
  end.
Proof. rewrite bind_eq. destruct (res (m s)); reflexivity. Qed.

(** ** The four teardown blocks, evaluated *)

Ltac run_call :=
  match goal with
  | H : invoke ?e ?c ?w = _ |- context [invoke ?e ?c ?w] => rewrite H; simpl
  | |- context [invoke ?e ?c ?w] =>
      let w' := fresh "w" in let v := fresh "v" in
      let e' := fresh "e" in let E := fresh "E" in
      destruct (invoke e c w) as [[v|e'] w'] eqn:E; simpl;
      [ | let X := fresh "X" in destruct (is_Exception e') eqn:X; simpl ]
  end.

Ltac unfold_ops :=
  unfold console_view_print_info, console_view_print_success,
    console_view_print_error, visualizer_running;
  unfold bind, get, try_except_Exception, getattr, invoke_call, ret, emit;
  simpl.

Ltac close_reply :=
  unfold reply_events, reply_result, error_report;
  repeat match goal with H : is_Exception _ = _ |- _ => rewrite H end;
  reflexivity.

Lemma stop_command_controller_eq s :
  stop_command_controller env s =
  match cmd_controller (self s) with
  | None => Out (Ret tt) s []
  | Some _ =>
      let (r, w) := invoke env cmd_controller_stop (world s) in
      Out (reply_result r) (with_world w s) (reply_events cmd_controller_stop r)
  end.
Proof.
  unfold stop_command_controller; unfold_ops.
  destruct (cmd_controller (self s)) eqn:Hc; simpl; rewrite ?Hc; simpl; [|reflexivity].
  run_call; close_reply.
Qed.

Lemma close_websocket_eq s :
  close_websocket env s =
  match ws_controller (self s) with
  | None => Out (Ret tt) s []
  | Some _ =>
      let (r, w) := invoke env ws_controller_close (world s) in
      Out (reply_result r) (with_world w s) (reply_events ws_controller_close r)
  end.
Proof.
  unfold close_websocket; unfold_ops.
  destruct (ws_controller (self s)) eqn:Hc; simpl; rewrite ?Hc; simpl; [|reflexivity].
  run_call; close_reply.
Qed.

Lemma stop_visualization_eq s :
  stop_visualization env s =
  match visualizer (self s) with
  | None => Out (Ret tt) s []
  | Some _ =>
      if running env (world s) then
        let (r, w) := invoke env visualizer_stop (world s) in
        Out (reply_result r) (with_world w s)
            (Get_running true :: reply_events visualizer_stop r)
      else Out (Ret tt) s [Get_running false]
  end.
Proof.
  unfold stop_visualization, visualizer_is_running; unfold_ops.
  destruct (visualizer (self s)) eqn:Hc; simpl; rewrite ?Hc; simpl; [|reflexivity].
  destruct (running env (world s)) eqn:Hr; simpl; rewrite ?Hc; simpl; [|reflexivity].
  run_call; close_reply.
Qed.

Lemma flush_and_close_database_eq s :
  flush_and_close_database env s =
  match db_manager (self s) with
  | None => Out (Ret tt) s []
  | Some _ =>
      match console_view (self s) with
      | None =>
          Out (Ret tt) s
              [print (error_report db_manager_flush (AttributeError "console_view"))]
      | Some _ =>
          let (r, w) := invoke env db_manager_flush (world s) in
          match r with
          | Raises _ =>
              Out (reply_result r) (with_world w s)
                  (flushing :: reply_events db_manager_flush r)
          | Returns _ =>
              let (r', w') := invoke env db_manager_close w in
              Out (reply_result r') (with_world w' s)
                  (flushing :: Call db_manager_flush r ::
                   reply_events db_manager_close r' ++
                   match r' with
                   | Returns _ => [closed_ok]
                   | Raises _ => []
                   end)
          end
      end
  end.
Proof.
  unfold flush_and_close_database; unfold_ops.
  destruct (db_manager (self s)) eqn:Hd; simpl; rewrite ?Hd; simpl; [|reflexivity].
  destruct (console_view (self s)) eqn:Hc; simpl; rewrite ?Hc; simpl; [|reflexivity].
  repeat (run_call; rewrite ?Hd, ?Hc; simpl); close_reply.
Qed.

(** ** What a computation leaves unchanged *)

Section Preservation.

Variable R : state W -> state W -> Prop.
Hypothesis R_refl : forall s, R s s.
Hypothesis R_trans : forall s1 s2 s3, R s1 s2 -> R s2 s3 -> R s1 s3.
Hypothesis R_call : forall c s, R s (with_world (snd (invoke env c (world s))) s).

Lemma preserves_bind A B (m : M W A) (f : A -> M W B) :
  preserves R m -> (forall a, preserves R (f a)) -> preserves R (bind m f).
Proof.
  intros Hm Hf s. rewrite post_bind. specialize (Hm s).
  destruct (res (m s)); auto.
  eapply R_trans; [exact Hm | apply Hf].
Qed.

Lemma preserves_ret A (a : A) : preserves R (ret (W:=W) a).
Proof. intros s; apply R_refl. Qed.

Lemma preserves_raise A e : preserves R (raise (W:=W) (A:=A) e).
Proof. intros s; apply R_refl. Qed.

Lemma preserves_stop A h : preserves R (stop (W:=W) (A:=A) h).
Proof. intros s; apply R_refl. Qed.

Lemma preserves_emit ev : preserves R (emit (W:=W) ev).
Proof. intros s; apply R_refl. Qed.

Lemma preserves_get : preserves R (get (W:=W)).
Proof. intros s; apply R_refl. Qed.

Lemma preserves_getattr A name (f : CryptoMonitorApp -> option A) :
  preserves R (getattr (W:=W) name f).
Proof. intros s; unfold getattr; destruct (f (self s)); apply R_refl. Qed.

Lemma preserves_invoke_call c : preserves R (invoke_call env c).
Proof.
  intros s; unfold invoke_call. generalize (R_call c s).
  destruct (invoke env c (world s)) as [[v|e] w]; simpl; auto.
Qed.

Lemma preserves_visualizer_running : preserves R (visualizer_running env).
Proof. intros s; apply R_refl. Qed.

Lemma preserves_try_except_Exception body handler :
  preserves R body -> (forall e, preserves R (handler e)) ->
  preserves R (try_except_Exception body handler).
Proof.
  intros Hb Hh s; unfold try_except_Exception.
  generalize (Hb s). destruct (body s) as [[a|e|h] s1 t1]; simpl; auto.
  destruct (is_Exception e); simpl; auto.
  intros H1. generalize (Hh e s1). destruct (handler e s1); simpl; eauto.
Qed.

Lemma preserves_try_except_KeyboardInterrupt body handler :
  preserves R body -> preserves R handler ->
  preserves R (try_except_KeyboardInterrupt body handler).
Proof.
  intros Hb Hh s; unfold try_except_KeyboardInterrupt.
  generalize (Hb s). destruct (body s) as [[a|e|h] s1 t1]; simpl; auto.
  destruct (is_KeyboardInterrupt e); simpl; auto.
  intros H1. generalize (Hh s1). destruct (handler s1); simpl; eauto.
Qed.

Lemma preserves_try_finally body final :
  preserves R body -> preserves R final -> preserves R (try_finally body final).
Proof.
  intros Hb Hf s; unfold try_finally.
  generalize (Hb s). destruct (body s) as [[a|e|h] s1 t1]; simpl; auto;
    intros H1; generalize (Hf s1); destruct (final s1) as [[a2|e2|h2] s2 t2];
    simpl; eauto.
Qed.

#[local] Hint Resolve preserves_bind preserves_ret preserves_raise preserves_stop
  preserves_emit preserves_get preserves_getattr preserves_invoke_call
  preserves_visualizer_running preserves_try_except_Exception
  preserves_try_except_KeyboardInterrupt preserves_try_finally : preserves.

Ltac preserve :=
  repeat first
    [ progress intros
    | assumption
    | solve [auto with preserves]
    | apply preserves_bind
    | apply preserves_try_except_Exception
    | apply preserves_try_except_KeyboardInterrupt
    | apply preserves_try_finally
    | match goal with |- preserves R (if ?b then _ else _) => destruct b end
    | match goal with |- preserves R (match ?x with _ => _ end) => destruct x end ].

Lemma preserves_console_view_print_info msg p :
  preserves R (console_view_print_info (W:=W) msg p).
Proof. unfold console_view_print_info; preserve. Qed.

Lemma preserves_console_view_print_success msg :
  preserves R (console_view_print_success (W:=W) msg).
Proof. unfold console_view_print_success; preserve. Qed.

Lemma preserves_console_view_print_error msg :
  preserves R (console_view_print_error (W:=W) msg).
Proof. unfold console_view_print_error; preserve. Qed.

#[local] Hint Resolve preserves_console_view_print_info
  preserves_console_view_print_success preserves_console_view_print_error
  : preserves.

Lemma preserves_blocks :
  preserves R (stop_command_controller env) /\
  preserves R (close_websocket env) /\
  preserves R (stop_visualization env) /\
  preserves R (flush_and_close_database env).
Proof.
  unfold stop_command_controller, close_websocket, stop_visualization,
    visualizer_is_running, flush_and_close_database.
  repeat split; preserve.
Qed.

Lemma preserves_cleanup : preserves R (cleanup env).
Proof.
  destruct preserves_blocks as (H1 & H2 & H3 & H4).
  unfold cleanup. preserve.
Qed.

Lemma preserves_signal_handler sig : preserves R (signal_handler env sig).
Proof.
  unfold signal_handler. pose proof preserves_cleanup. preserve.
Qed.

Lemma preserves_sleep t : preserves R (sleep env t).
Proof.
  unfold sleep. pose proof preserves_signal_handler. preserve.
Qed.

Lemma preserves_keep_alive schedule : preserves R (keep_alive env schedule).
Proof.
  induction schedule as [|t rest IH]; simpl.
  - apply preserves_stop.
  - pose proof (preserves_sleep t). preserve.
Qed.

Lemma preserves_keep_main_thread_alive schedule :
  preserves R (keep_main_thread_alive env schedule).
Proof.
  unfold keep_main_thread_alive.
  pose proof (preserves_keep_alive schedule). pose proof preserves_cleanup.
  preserve.
Qed.

Lemma preserves_deref r : preserves R (deref (W:=W) r).
Proof. intros s; apply R_refl. Qed.

Lemma preserves_startup : preserves R (startup env).
Proof.
  unfold startup, start_visualization.
  pose proof preserves_deref.
  preserve.
Qed.

Lemma preserves_start schedule : preserves R (start env schedule).
Proof.
  unfold start.
  pose proof (preserves_keep_main_thread_alive schedule).
  pose proof preserves_startup.
  preserve.
Qed.

Lemma preserves_run_exit_hooks hooks : preserves R (run_exit_hooks env hooks).
Proof.
  induction hooks as [|h rest IH]; simpl.
  - apply preserves_ret.
  - apply preserves_bind; auto.
    intros s. generalize (preserves_cleanup s).
    destruct h; simpl. destruct (cleanup env s) as [[a|e|h] s1 t1]; simpl; auto.
Qed.

End Preservation.

Lemma untouched_refl (s : state W) : untouched s s.
Proof. unfold untouched; auto. Qed.

Lemma untouched_trans (s1 s2 s3 : state W) :
  untouched s1 s2 -> untouched s2 s3 -> untouched s1 s3.
Proof. unfold untouched; intuition congruence. Qed.

Lemma untouched_call c s :
  untouched s (with_world (snd (invoke env c (world s))) s).
Proof. unfold untouched; simpl; auto. Qed.

Lemma cleanup_untouched s : untouched s (post (cleanup env s)).
Proof.
  revert s. change (preserves (@untouched W) (cleanup env)).
  apply preserves_cleanup;
    [exact untouched_refl | exact untouched_trans | exact untouched_call].
Qed.

Lemma start_untouched schedule s : untouched s (post (start env schedule s)).
Proof.
  revert s. change (preserves (@untouched W) (start env schedule)).
  apply preserves_start;
    [exact untouched_refl | exact untouched_trans | exact untouched_call].
Qed.

Lemma untouched_block (m : M W unit) s :
  preserves (@untouched W) m -> self (post (m s)) = self s.
Proof. intros H. apply (H s). Qed.

Lemma blocks_untouched :
  preserves (@untouched W) (stop_command_controller env) /\
  preserves (@untouched W) (close_websocket env) /\
  preserves (@untouched W) (stop_visualization env) /\
  preserves (@untouched W) (flush_and_close_database env).
Proof.
  apply preserves_blocks;
    [exact untouched_refl | exact untouched_trans | exact untouched_call].
Qed.

(** ** [cleanup] as the sequence of its four blocks *)

Lemma console_view_print_info_eq msg p (s : state W) :
  console_view_print_info msg p s =
  match console_view (self s) with
  | Some _ => Out (Ret tt) s [print_info msg p]
  | None => Out (Raise (AttributeError "console_view")) s []
  end.
Proof.
  unfold console_view_print_info, bind, getattr, emit.
  destruct (console_view (self s)); reflexivity.
Qed.

Lemma cleanup_eq s :
  cleanup env s =
  match console_view (self s) with
  | None => Out (Raise (AttributeError "console_view")) s []
  | Some _ =>
      let o1 := stop_command_controller env s in
      let o2 := close_websocket env (post o1) in
      let o3 := stop_visualization env (post o2) in
      let o4 := flush_and_close_database env (post o3) in
      match res o1, res o2, res o3, res o4 with
      | Ret _, Ret _, Ret _, Ret _ =>
          Out (Ret tt) (post o4)
              (starting :: evs o1 ++ evs o2 ++ evs o3 ++ evs o4 ++ [complete])
      | Ret _, Ret _, Ret _, r =>
          Out r (post o4) (starting :: evs o1 ++ evs o2 ++ evs o3 ++ evs o4)
      | Ret _, Ret _, r, _ => Out r (post o3) (starting :: evs o1 ++ evs o2 ++ evs o3)
      | Ret _, r, _, _ => Out r (post o2) (starting :: evs o1 ++ evs o2)
      | r, _, _, _ => Out r (post o1) (starting :: evs o1)
      end
  end.
Proof.
  destruct blocks_untouched as (U1 & U2 & U3 & U4).
  unfold cleanup. rewrite bind_eq, console_view_print_info_eq.
  destruct (console_view (self s)) as [cv|] eqn:Hcv; cbn [res post evs];
    [|reflexivity].
  cbv zeta.
  set (o1 := stop_command_controller env s).
  assert (E1 : console_view (self (post o1)) = Some cv)
    by (unfold o1; rewrite (untouched_block s U1); assumption).
  rewrite bind_eq. fold o1.
  destruct (res o1) eqn:R1; cbn [res post evs]; try reflexivity.
  set (o2 := close_websocket env (post o1)).
  assert (E2 : console_view (self (post o2)) = Some cv)
    by (unfold o2; rewrite (untouched_block _ U2); assumption).
  rewrite bind_eq. fold o2.
  destruct (res o2) eqn:R2; cbn [res post evs]; try reflexivity.
  set (o3 := stop_visualization env (post o2)).
  assert (E3 : console_view (self (post o3)) = Some cv)
    by (unfold o3; rewrite (untouched_block _ U3); assumption).
  rewrite bind_eq. fold o3.
  destruct (res o3) eqn:R3; cbn [res post evs]; try reflexivity.
  set (o4 := flush_and_close_database env (post o3)).
  assert (E4 : console_view (self (post o4)) = Some cv)
    by (unfold o4; rewrite (untouched_block _ U4); assumption).
  rewrite bind_eq. fold o4.
  destruct (res o4) eqn:R4; cbn [res post evs]; try reflexivity.
  rewrite console_view_print_info_eq, E4. reflexivity.
Qed.

(** The trace of [cleanup]: each block runs if the ones before it returned. *)
Lemma cleanup_trace s :
  console_view (self s) <> None ->
  let o1 := stop_command_controller env s in
  let o2 := close_websocket env (post o1) in
  let o3 := stop_visualization env (post o2) in
  let o4 := flush_and_close_database env (post o3) in
  let b2 := is_Ret (res o1) in
  let b3 := b2 && is_Ret (res o2) in
  let b4 := b3 && is_Ret (res o3) in
  let b5 := b4 && is_Ret (res o4) in
  evs (cleanup env s) =
  starting :: evs o1 ++ when b2 (evs o2) ++ when b3 (evs o3) ++
  when b4 (evs o4) ++ when b5 [complete].
Proof.
  intros Hcv. rewrite cleanup_eq.
  destruct (console_view (self s)); [|congruence].
  cbv zeta.
  set (o1 := stop_command_controller env s).
  set (o2 := close_websocket env (post o1)).
  set (o3 := stop_visualization env (post o2)).
  set (o4 := flush_and_close_database env (post o3)).
  destruct (res o1); cbn [evs is_Ret andb when]; rewrite ?app_nil_r; auto.
  destruct (res o2); cbn [evs is_Ret andb when]; rewrite ?app_nil_r; auto.
  destruct (res o3); cbn [evs is_Ret andb when]; rewrite ?app_nil_r; auto.
  destruct (res o4); cbn [evs is_Ret andb when]; rewrite ?app_nil_r; auto.
Qed.

Lemma cleanup_no_console_view s :
  console_view (self s) = None ->
  cleanup env s = Out (Raise (AttributeError "console_view")) s [].
Proof. intros H. rewrite cleanup_eq, H. reflexivity. Qed.

Lemma in_when ev b t : In ev (when b t) -> b = true /\ In ev t.
Proof. destruct b; simpl; tauto. Qed.

Lemma block_state_self s b : self (block_state env s b) = self s.
Proof.
  destruct blocks_untouched as (U1 & U2 & U3 & U4).
  assert (E1 : self (post (stop_command_controller env s)) = self s)
    by apply (U1 s).
  assert (E2 : self (post (close_websocket env
                 (post (stop_command_controller env s)))) = self s)
    by (rewrite <- E1; apply (U2 _)).
  destruct b; simpl; auto.
  rewrite <- E2; apply (U3 _).
Qed.

(** Every event of a [cleanup] trace is its first or last message, or was
    left by one of the four blocks, whose events are all in the trace. *)
Lemma cleanup_events s ev :
  In ev (evs (cleanup env s)) ->
  ev = starting \/ ev = complete \/
  exists b, In ev (block_evs env s b) /\ incl (block_evs env s b) (evs (cleanup env s)).
Proof.
  destruct (console_view (self s)) eqn:Hcv;
    [|rewrite cleanup_no_console_view by assumption; simpl; tauto].
  rewrite cleanup_trace by congruence. cbv zeta.
  unfold block_evs, block_state, run_block.
  set (o1 := stop_command_controller env s).
  set (o2 := close_websocket env (post o1)).
  set (o3 := stop_visualization env (post o2)).
  set (o4 := flush_and_close_database env (post o3)).
  intros [H|H]; auto.
  rewrite !in_app_iff in H. destruct H as [H|[H|[H|[H|H]]]].
  - right; right. exists Cmd. split; auto.
    intros x Hx. right. rewrite in_app_iff; auto.
  - apply in_when in H as [Hb H]. rewrite Hb.
    right; right. exists Ws. split; auto.
    intros x Hx. right. rewrite !in_app_iff; auto.
  - apply in_when in H as [Hb H]. rewrite Hb.
    right; right. exists Viz. split; auto.
    intros x Hx. right. rewrite !in_app_iff; auto.
  - apply in_when in H as [Hb H]. rewrite Hb.
    right; right. exists Db. split; auto.
    intros x Hx. right. rewrite !in_app_iff; auto 6.
  - apply in_when in H as [Hb [H|[]]]. auto.
Qed.

Lemma reply_events_owner c r ev :
  In ev (reply_events c r) -> ev = Call c r \/ exists e, ev = print (error_report c e).
Proof.
  unfold reply_events. intros [H|H]; auto.
  destruct r as [v|e]; [destruct H|].
  destruct (is_Exception e); [|destruct H].
  destruct H as [H|[]]. eauto.
Qed.

Lemma block_owner b s ev :
  In ev (evs (run_block env b s)) ->
  owner ev = Some b \/ (exists m, ev = print m) \/ ev = flushing.
Proof.
  destruct b; simpl.
  - rewrite stop_command_controller_eq.
    destruct (cmd_controller (self s)); [|simpl; tauto].
    destruct (invoke env cmd_controller_stop (world s)) as [r w]; simpl evs.
    intros H; apply reply_events_owner in H as [->|[e ->]]; eauto.
  - rewrite close_websocket_eq.
    destruct (ws_controller (self s)); [|simpl; tauto].
    destruct (invoke env ws_controller_close (world s)) as [r w]; simpl evs.
    intros H; apply reply_events_owner in H as [->|[e ->]]; eauto.
  - rewrite stop_visualization_eq.
    destruct (visualizer (self s)); [|simpl; tauto].
    destruct (running env (world s)); [|simpl; intuition (subst; auto)].
    destruct (invoke env visualizer_stop (world s)) as [r w]; simpl evs.
    intros [<-|H]; auto.
    apply reply_events_owner in H as [->|[e ->]]; eauto.
  - rewrite flush_and_close_database_eq.
    destruct (db_manager (self s)); [|simpl; tauto].
    destruct (console_view (self s)); [|simpl; intuition (subst; eauto)].
    destruct (invoke env db_manager_flush (world s)) as [[v|e] w].
    + destruct (invoke env db_manager_close w) as [r' w']; simpl evs.
      rewrite !app_comm_cons, in_app_iff.
      intros [[<-|[<-|H]]|H]; auto.
      * apply reply_events_owner in H as [->|[e ->]]; eauto.
      * destruct r'; simpl in H; [destruct H as [<-|[]]; auto | destruct H].
    + simpl evs. intros [<-|H]; auto.
      apply reply_events_owner in H as [->|[e' ->]]; eauto.
Qed.

(** An event owned by a block is in a [cleanup] trace only through that
    block. *)
Lemma cleanup_event_owner s ev b :
  In ev (evs (cleanup env s)) -> owner ev = Some b ->
  In ev (block_evs env s b) /\ incl (block_evs env s b) (evs (cleanup env s)).
Proof.
  intros H Ho. apply cleanup_events in H as [->|[->|(b' & H & Hi)]];
    try discriminate.
  assert (b' = b); [|subst; auto].
  apply block_owner in H as [H|[[m ->]| ->]]; try discriminate.
  congruence.
Qed.

(** ** The visualizer block *)




(** ** The database block *)

Lemma flush_and_close_database_shape s :
  let t := evs (flush_and_close_database env s) in
  t = [] \/
  t = [print (error_report db_manager_flush (AttributeError "console_view"))] \/
  (exists e, t = flushing :: reply_events db_manager_flush (Raises e)) \/
  (exists v r, t = flushing :: Call db_manager_flush (Returns v) ::
                   reply_events db_manager_close r ++
                   match r with
                   | Returns _ => [closed_ok]
                   | Raises _ => []
                   end).
Proof.
  rewrite flush_and_close_database_eq.
  destruct (db_manager (self s)); simpl; auto.
  destruct (console_view (self s)); simpl; auto.
  destruct (invoke env db_manager_flush (world s)) as [[v|e] w].
  - destruct (invoke env db_manager_close w) as [r w']. simpl. eauto 6.
  - simpl. eauto 6.
Qed.

Ltac in_cases H :=
  repeat first
    [ apply in_app_iff in H as [H|H]
    | apply reply_events_owner in H as [H|[? H]]
    | match type of H with In _ (match ?r with _ => _ end) => destruct r end
    | destruct H as [H|H] ];
  try discriminate; try contradiction.

(** C8.  In a [cleanup] trace [db_manager.close()] is called only if
    [db_manager.flush()] returned; when the flush raises, [close()] is not
    called and the success message is not shown in that invocation, and an
    [Exception] raised by the flush is reported as a failure to close the
    database. *)
Theorem close_only_after_flush_returned (s : state W) :
  (called db_manager_close (evs (cleanup env s)) ->
   exists v, In (Call db_manager_flush (Returns v)) (evs (cleanup env s))) /\
  (forall e, In (Call db_manager_flush (Raises e)) (evs (cleanup env s)) ->
     ~ called db_manager_close (evs (cleanup env s)) /\
     ~ In (print_success "Database closed successfully.") (evs (cleanup env s)) /\
     (is_Exception e = true ->
      In (print ("Error closing database: " ++ str e)) (evs (cleanup env s)))).
Proof.
  pose proof (flush_and_close_database_shape (block_state env s Db)) as Hs.
  cbv zeta in Hs. fold (run_block env Db) in Hs. fold (block_evs env s Db) in Hs.
  assert (Hdb : forall ev, owner ev = Some Db -> In ev (evs (cleanup env s)) ->
            In ev (block_evs env s Db) /\
            incl (block_evs env s Db) (evs (cleanup env s)))
    by (intros; apply cleanup_event_owner; auto).
  split.
  - intros [r Hr]. apply Hdb in Hr as [Hr Hi]; [|reflexivity].
    destruct Hs as [E|[E|[[e E]|(v & r' & E)]]]; rewrite E in Hr, Hi.
    + in_cases Hr.
    + in_cases Hr.
    + in_cases Hr.
    + exists v. apply Hi. right. left. reflexivity.
  - intros e He. apply Hdb in He as [He Hi]; [|reflexivity].
    destruct Hs as [E|[E|[[e' E]|(v & r' & E)]]]; rewrite E in He, Hi.
    + in_cases He.
    + in_cases He.
    + assert (e' = e) by (in_cases He; congruence). subst e'.
      split; [|split].
      * intros [r Hr]. apply Hdb in Hr as [Hr _]; [|reflexivity].
        rewrite E in Hr. in_cases Hr.
      * intros Hr. apply Hdb in Hr as [Hr _]; [|reflexivity].
        rewrite E in Hr. in_cases Hr.
      * intros Hx. apply Hi. right. unfold reply_events. rewrite Hx.
        right. left. reflexivity.
    + in_cases He.
Qed.

(** ** Failures of the collaborators *)

Lemma errors_only_app t1 t2 :
  errors_only (t1 ++ t2) = errors_only t1 && errors_only t2.
Proof. apply forallb_app. Qed.

Lemma reply_result_errors_only c r t :
  errors_only (reply_events c r ++ t) = true -> reply_result r = Ret tt.
Proof.
  destruct r as [v|e]; simpl; auto.
  destruct (is_Exception e); simpl; auto. discriminate.
Qed.

Lemma block_returns b s :
  errors_only (evs (run_block env b s)) = true -> res (run_block env b s) = Ret tt.
Proof.
  destruct b; simpl run_block.
  - rewrite stop_command_controller_eq.
    destruct (cmd_controller (self s)); auto.
    destruct (invoke env cmd_controller_stop (world s)) as [r w]; cbn [res evs].
    rewrite <- (app_nil_r (reply_events _ _)). apply reply_result_errors_only.
  - rewrite close_websocket_eq.
    destruct (ws_controller (self s)); auto.
    destruct (invoke env ws_controller_close (world s)) as [r w]; cbn [res evs].
    rewrite <- (app_nil_r (reply_events _ _)). apply reply_result_errors_only.
  - rewrite stop_visualization_eq.
    destruct (visualizer (self s)); auto.
    destruct (running env (world s)); auto.
    destruct (invoke env visualizer_stop (world s)) as [r w]; cbn [res evs].
    rewrite <- (app_nil_r (reply_events _ _)).
    intros H. apply (reply_result_errors_only visualizer_stop r []). exact H.
  - rewrite flush_and_close_database_eq.
    destruct (db_manager (self s)); auto.
    destruct (console_view (self s)); auto.
    destruct (invoke env db_manager_flush (world s)) as [[v|e] w].
    + destruct (invoke env db_manager_close w) as [r w']; cbn [res evs].
      intros H. eapply (reply_result_errors_only db_manager_close r). exact H.
    + cbn [res evs]. rewrite <- (app_nil_r (reply_events _ _)).
      intros H. apply (reply_result_errors_only db_manager_flush (Raises e) []).
      exact H.
Qed.

Lemma reply_events_reports c r c' e :
  In (Call c' (Raises e)) (reply_events c r) -> is_Exception e = true ->
  In (print (error_report c' e)) (reply_events c r).
Proof.
  intros H He. apply reply_events_owner in H as [H|[e' H]]; [|discriminate].
  injection H as -> <-. unfold reply_events. rewrite He. right; left; reflexivity.
Qed.

Lemma block_reports b s c e :
  In (Call c (Raises e)) (evs (run_block env b s)) -> is_Exception e = true ->
  In (print (error_report c e)) (evs (run_block env b s)).
Proof.
  destruct b; simpl run_block.
  - rewrite stop_command_controller_eq.
    destruct (cmd_controller (self s)); [|intros []].
    destruct (invoke env cmd_controller_stop (world s)) as [r w]; simpl evs.
    apply reply_events_reports.
  - rewrite close_websocket_eq.
    destruct (ws_controller (self s)); [|intros []].
    destruct (invoke env ws_controller_close (world s)) as [r w]; simpl evs.
    apply reply_events_reports.
  - rewrite stop_visualization_eq.
    destruct (visualizer (self s)); [|intros []].
    destruct (running env (world s)); [|intros [H|[]]; discriminate].
    destruct (invoke env visualizer_stop (world s)) as [r w]; simpl evs.
    intros [H|H] He; [discriminate|]. right. apply reply_events_reports; auto.
  - rewrite flush_and_close_database_eq.
    destruct (db_manager (self s)); [|intros []].
    destruct (console_view (self s)); [|intros [H|[]]; discriminate].
    destruct (invoke env db_manager_flush (world s)) as [[v|e'] w].
    + destruct (invoke env db_manager_close w) as [r w']; simpl evs.
      rewrite !app_comm_cons, !in_app_iff.
      intros [[H|[H|H]]|H] He; try discriminate.
      * left. right. right. apply reply_events_reports; auto.
      * destruct r; in_cases H.
    + simpl evs. intros [H|H] He; [discriminate|].
      right. apply reply_events_reports; auto.
Qed.

Lemma block_attempts s :
  (hasattr (cmd_controller (self s)) = true ->
   called cmd_controller_stop (evs (run_block env Cmd s))) /\
  (hasattr (ws_controller (self s)) = true ->
   called ws_controller_close (evs (run_block env Ws s))) /\
  (hasattr (visualizer (self s)) = true ->
   exists b, In (Get_running b) (evs (run_block env Viz s)) /\
             (b = true -> called visualizer_stop (evs (run_block env Viz s)))) /\
  (hasattr (db_manager (self s)) = true -> console_view (self s) <> None ->
   called db_manager_flush (evs (run_block env Db s))).
Proof.
  simpl run_block. repeat split.
  - rewrite stop_command_controller_eq.
    destruct (cmd_controller (self s)); [intros _|discriminate].
    destruct (invoke env cmd_controller_stop (world s)) as [r w].
    exists r. left. reflexivity.
  - rewrite close_websocket_eq.
    destruct (ws_controller (self s)); [intros _|discriminate].
    destruct (invoke env ws_controller_close (world s)) as [r w].
    exists r. left. reflexivity.
  - rewrite stop_visualization_eq.
    destruct (visualizer (self s)); [intros _|discriminate].
    destruct (running env (world s)).
    + destruct (invoke env visualizer_stop (world s)) as [r w].
      exists true. split; [left; reflexivity|]. intros _. exists r.
      right; left; reflexivity.
    + exists false. split; [left; reflexivity | discriminate].
  - rewrite flush_and_close_database_eq.
    destruct (db_manager (self s)); [intros _|discriminate].
    destruct (console_view (self s)); [intros _|congruence].
    destruct (invoke env db_manager_flush (world s)) as [[v|e] w].
    + destruct (invoke env db_manager_close w) as [r w'].
      exists (Returns v). right; left; reflexivity.
    + exists (Raises e). right; left; reflexivity.
Qed.

Lemma called_incl c t1 t2 : incl t1 t2 -> called c t1 -> called c t2.
Proof. intros Hi [r Hr]. exists r. auto. Qed.

(** When no collaborator raises anything but [Exception]s, [cleanup] runs
    through all four blocks to its last line. *)
Lemma cleanup_full_trace s :
  console_view (self s) <> None ->
  errors_only (evs (cleanup env s)) = true ->
  res (cleanup env s) = Ret tt /\
  evs (cleanup env s) =
  starting :: block_evs env s Cmd ++ block_evs env s Ws ++ block_evs env s Viz ++
  block_evs env s Db ++ [complete].
Proof.
  intros Hcv. rewrite cleanup_trace by assumption. rewrite cleanup_eq.
  destruct (console_view (self s)); [clear Hcv|congruence].
  cbv zeta. unfold block_evs, block_state, run_block.
  set (o1 := stop_command_controller env s).
  set (o2 := close_websocket env (post o1)).
  set (o3 := stop_visualization env (post o2)).
  set (o4 := flush_and_close_database env (post o3)).
  change (errors_only (starting :: ?t)) with (errors_only t).
  rewrite errors_only_app. intros H. apply andb_prop in H as [H1 H].
  assert (R1 : res o1 = Ret tt) by exact (block_returns Cmd s H1).
  rewrite R1 in H |- *. cbn [when is_Ret andb] in H |- *.
  rewrite errors_only_app in H. apply andb_prop in H as [H2 H].
  assert (R2 : res o2 = Ret tt) by exact (block_returns Ws _ H2).
  rewrite R2 in H |- *. cbn [when is_Ret andb] in H |- *.
  rewrite errors_only_app in H. apply andb_prop in H as [H3 H].
  assert (R3 : res o3 = Ret tt) by exact (block_returns Viz _ H3).
  rewrite R3 in H |- *. cbn [when is_Ret andb] in H |- *.
  rewrite errors_only_app in H. apply andb_prop in H as [H4 H].
  assert (R4 : res o4 = Ret tt) by exact (block_returns Db _ H4).
  rewrite R4 in H |- *. cbn [when is_Ret andb] in H |- *.
  split; reflexivity.
Qed.

Lemma cleanup_completes s :
  console_view (self s) <> None ->
  errors_only (evs (cleanup env s)) = true ->
  res (cleanup env s) = Ret tt /\
  (forall b, incl (block_evs env s b) (evs (cleanup env s))) /\
  In complete (evs (cleanup env s)).
Proof.
  intros Hcv Herr. destruct (cleanup_full_trace s Hcv Herr) as [Hr Ht].
  rewrite Ht. split; [assumption|]. split.
  - intros b x Hx. right. rewrite !in_app_iff. destruct b; auto 6.
  - right. rewrite !in_app_iff. simpl. auto 7.
Qed.

(** C3.  When a teardown call raises an error (an [Exception], as the other
    failures of that invocation), the error is reported with the line of its
    step, every step whose component is assigned is attempted, and [cleanup]
    runs to its last line and returns. *)
Theorem teardown_failure_does_not_abort (s : state W) (c : call) (e : exn) :
  errors_only (evs (cleanup env s)) = true ->
  In (Call c (Raises e)) (evs (cleanup env s)) ->
  In (print (error_report c e)) (evs (cleanup env s)) /\
  attempted (self s) (evs (cleanup env s)) /\
  In (print_info "Application shutdown complete." false) (evs (cleanup env s)) /\
  res (cleanup env s) = Ret tt.
Proof.
  intros Herr Hc.
  assert (Hcv : console_view (self s) <> None).
  { intros Hn. rewrite (cleanup_no_console_view _ Hn) in Hc. destruct Hc. }
  destruct (cleanup_completes _ Hcv Herr) as (Hres & Hincl & Hlast).
  assert (He : is_Exception e = true).
  { unfold errors_only in Herr. rewrite forallb_forall in Herr.
    apply (Herr _ Hc). }
  split; [|split; [|split]]; auto.
  - apply cleanup_events in Hc as [Hc|[Hc|(b & Hc & Hi)]]; try discriminate.
    apply Hi. apply block_reports; auto.
  - pose proof (block_attempts (block_state env s Cmd)) as (A1 & _).
    pose proof (block_attempts (block_state env s Ws)) as (_ & A2 & _).
    pose proof (block_attempts (block_state env s Viz)) as (_ & _ & A3 & _).
    pose proof (block_attempts (block_state env s Db)) as (_ & _ & _ & A4).
    rewrite block_state_self in A1, A2, A3, A4.
    repeat split.
    + intros H. apply (called_incl (Hincl Cmd)); auto.
    + intros H. apply (called_incl (Hincl Ws)); auto.
    + intros H. destruct (A3 H) as (b & Hb & Hs). exists b. split.
      * apply (Hincl Viz); auto.
      * intros Hb'. apply (called_incl (Hincl Viz)); auto.
    + intros H. apply (called_incl (Hincl Db)); auto.
Qed.

(** ** Order of the teardown calls *)

Lemma same_call_refl c : same_call c c = true.
Proof. unfold same_call. destruct (call_eq_dec c c); congruence. Qed.

Lemma subseq_nil p : subseq [] p = true.
Proof. destruct p; reflexivity. Qed.

Lemma subseq_tail c l p : subseq (c :: l) p = true -> subseq l p = true.
Proof.
  revert c l. induction p as [|d p IH]; intros c l H; simpl in *.
  - discriminate.
  - destruct l as [|c' l']; [reflexivity|].
    destruct (same_call c d).
    + destruct (same_call c' d); eauto.
    + destruct (same_call c' d); eauto.
Qed.

Lemma subseq_cons l d p : subseq l p = true -> subseq l (d :: p) = true.
Proof.
  destruct l as [|c l]; simpl; auto.
  destruct (same_call c d); eauto using subseq_tail.
Qed.

Lemma subseq_app l1 l2 p1 p2 :
  subseq l1 p1 = true -> subseq l2 p2 = true -> subseq (l1 ++ l2) (p1 ++ p2) = true.
Proof.
  revert l1. induction p1 as [|d p1 IH]; intros l1 H1 H2.
  - destruct l1; [assumption | discriminate].
  - destruct l1 as [|c l1]; simpl in *.
    + apply subseq_cons. apply (IH []); auto using subseq_nil.
    + destruct (same_call c d); [apply IH | apply (IH (c :: l1))]; auto.
Qed.

Lemma calls_app t1 t2 : calls (t1 ++ t2) = calls t1 ++ calls t2.
Proof.
  induction t1 as [|[] t1 IH]; simpl; congruence.
Qed.

Lemma calls_reply_events c r : calls (reply_events c r) = [c].
Proof.
  unfold reply_events. destruct r as [v|e]; simpl; auto.
  destruct (is_Exception e); reflexivity.
Qed.

Lemma within_bind p1 p2 A B (m : M W A) (f : A -> M W B) :
  within p1 m -> (forall a, within p2 (f a)) -> within (p1 ++ p2) (bind m f).
Proof.
  intros Hm Hf s. rewrite evs_bind, calls_app.
  apply subseq_app; auto.
  destruct (res (m s)); simpl; auto using subseq_nil. apply Hf.
Qed.

Lemma within_console_view_print_info msg p :
  within [] (console_view_print_info (W:=W) msg p).
Proof.
  intros s. unfold console_view_print_info, bind, getattr, emit.
  destruct (console_view (self s)); reflexivity.
Qed.

Lemma within_stop_command_controller :
  within [cmd_controller_stop] (stop_command_controller env).
Proof.
  intros s. rewrite stop_command_controller_eq.
  destruct (cmd_controller (self s)); [|reflexivity].
  destruct (invoke env cmd_controller_stop (world s)) as [r w]; simpl evs.
  rewrite calls_reply_events. reflexivity.
Qed.

Lemma within_close_websocket :
  within [ws_controller_close] (close_websocket env).
Proof.
  intros s. rewrite close_websocket_eq.
  destruct (ws_controller (self s)); [|reflexivity].
  destruct (invoke env ws_controller_close (world s)) as [r w]; simpl evs.
  rewrite calls_reply_events. reflexivity.
Qed.

Ltac by_reply r :=
  destruct r as [?v|?e]; unfold reply_events;
  [ reflexivity
  | match goal with
    | |- context [is_Exception ?e] => destruct (is_Exception e); reflexivity
    end ].

Lemma within_stop_visualization :
  within [visualizer_stop] (stop_visualization env).
Proof.
  intros s. rewrite stop_visualization_eq.
  destruct (visualizer (self s)); [|reflexivity].
  destruct (running env (world s)); [|reflexivity].
  destruct (invoke env visualizer_stop (world s)) as [r w]; simpl evs.
  by_reply r.
Qed.

Lemma within_flush_and_close_database :
  within [db_manager_flush; db_manager_close] (flush_and_close_database env).
Proof.
  intros s. rewrite flush_and_close_database_eq.
  destruct (db_manager (self s)); [|reflexivity].
  destruct (console_view (self s)); [|reflexivity].
  destruct (invoke env db_manager_flush (world s)) as [[v|e] w].
  - destruct (invoke env db_manager_close w) as [r' w']; simpl evs.
    by_reply r'.
  - simpl evs. by_reply (Raises e).
Qed.

(** The calls of a [cleanup] trace are calls of [teardown_order], in its
    order and each at most once. *)
Lemma cleanup_calls_in_order (s : state W) :
  subseq (calls (evs (cleanup env s))) teardown_order = true.
Proof.
  unfold cleanup.
  change teardown_order with
    ([] ++ [cmd_controller_stop] ++ [ws_controller_close] ++ [visualizer_stop]
        ++ [db_manager_flush; db_manager_close] ++ []).
  revert s.
  apply within_bind; [apply within_console_view_print_info | intros _].
  apply within_bind; [apply within_stop_command_controller | intros _].
  apply within_bind; [apply within_close_websocket | intros _].
  apply within_bind; [apply within_stop_visualization | intros _].
  apply within_bind; [apply within_flush_and_close_database | intros _].
  apply within_console_view_print_info.
Qed.

(** ** Repeated invocations *)

Lemma times_app c t1 t2 : times c (t1 ++ t2) = times c t1 + times c t2.
Proof. unfold times. rewrite calls_app, filter_app, length_app. reflexivity. Qed.

Ltac by_replies :=
  repeat match goal with
         | |- context [invoke ?en ?c ?wo] =>
             destruct (invoke en c wo) as [[?|?] ?]; cbn [evs];
             unfold reply_events
         | |- context [is_Exception ?ex] => destruct (is_Exception ex)
         end;
  reflexivity.

Lemma block_times b b' s :
  b' <> Viz -> console_view (self s) <> None ->
  times (step_call b') (evs (run_block env b s)) =
  if same_block b b' && guard b (self s) then 1 else 0.
Proof.
  intros Hb Hcv.
  destruct b; cbn [run_block guard].
  - rewrite stop_command_controller_eq.
    destruct (cmd_controller (self s));
      [|destruct b'; reflexivity].
    destruct b'; try congruence; by_replies.
  - rewrite close_websocket_eq.
    destruct (ws_controller (self s));
      [|destruct b'; reflexivity].
    destruct b'; try congruence; by_replies.
  - rewrite stop_visualization_eq.
    destruct (visualizer (self s));
      [|destruct b'; reflexivity].
    destruct (running env (world s));
      [|destruct b'; try congruence; reflexivity].
    destruct b'; try congruence; by_replies.
  - rewrite flush_and_close_database_eq.
    destruct (db_manager (self s));
      [|destruct b'; reflexivity].
    destruct (console_view (self s)); [|congruence].
    destruct b'; try congruence; by_replies.
Qed.

Lemma constructed_guard a b : constructed a = true -> guard b a = true.
Proof.
  unfold constructed. intros H.
  repeat (apply andb_prop in H as [H ?]).
  destruct b; assumption.
Qed.

Lemma constructed_console_view a : constructed a = true -> console_view a <> None.
Proof.
  unfold constructed. intros H.
  repeat (apply andb_prop in H as [H ?]).
  destruct (console_view a); [congruence|discriminate].
Qed.

(** ** The steps of one invocation *)

Lemma flush_owner b s r :
  In (Call db_manager_flush r) (evs (run_block env b s)) -> b = Db.
Proof.
  intros H. apply block_owner in H as [H|[[m H]|H]]; try discriminate.
  cbn [owner] in H. congruence.
Qed.

(** Where the flush stands in the database block: after the message that
    announces it, with nothing but the close after it. *)
Lemma flush_split s r :
  In (Call db_manager_flush r) (evs (flush_and_close_database env s)) ->
  exists post,
    evs (flush_and_close_database env s) =
    flushing :: Call db_manager_flush r :: post /\
    subseq (calls post) [db_manager_close] = true.
Proof.
  rewrite flush_and_close_database_eq.
  destruct (db_manager (self s)); [|intros []].
  destruct (console_view (self s)); [|intros [H|[]]; discriminate].
  destruct (invoke env db_manager_flush (world s)) as [[v|e] w].
  - destruct (invoke env db_manager_close w) as [r' w']. cbn [evs].
    intros [H|[H|H]]; [discriminate| |].
    + injection H as <-. eexists. split; [reflexivity|].
      rewrite calls_app, calls_reply_events. destruct r'; reflexivity.
    + exfalso. in_cases H.
  - cbn [evs]. unfold reply_events.
    intros [H|[H|H]]; [discriminate| |].
    + injection H as <-. eexists. split; [reflexivity|].
      destruct (is_Exception e); reflexivity.
    + exfalso. destruct (is_Exception e); in_cases H.
Qed.

(** The calls of each block whose component is assigned. *)
Lemma block_calls s :
  (hasattr (cmd_controller (self s)) = true ->
   calls (evs (run_block env Cmd s)) = [cmd_controller_stop]) /\
  (hasattr (ws_controller (self s)) = true ->
   calls (evs (run_block env Ws s)) = [ws_controller_close]) /\
  (hasattr (visualizer (self s)) = true ->
   calls (evs (run_block env Viz s)) =
   if running env (world s) then [visualizer_stop] else []) /\
  (hasattr (db_manager (self s)) = true -> console_view (self s) <> None ->
   calls (evs (run_block env Db s)) =
   db_manager_flush ::
   match fst (invoke env db_manager_flush (world s)) with
   | Returns _ => [db_manager_close]
   | Raises _ => []
   end).
Proof.
  cbn [run_block]. repeat split.
  - rewrite stop_command_controller_eq.
    destruct (cmd_controller (self s)); [intros _|discriminate].
    destruct (invoke env cmd_controller_stop (world s)) as [r w]. cbn [evs].
    apply calls_reply_events.
  - rewrite close_websocket_eq.
    destruct (ws_controller (self s)); [intros _|discriminate].
    destruct (invoke env ws_controller_close (world s)) as [r w]. cbn [evs].
    apply calls_reply_events.
  - rewrite stop_visualization_eq.
    destruct (visualizer (self s)); [intros _|discriminate].
    destruct (running env (world s)); [|reflexivity].
    destruct (invoke env visualizer_stop (world s)) as [r w]. cbn [evs].
    change (calls (Get_running true :: ?t)) with (calls t).
    apply calls_reply_events.
  - rewrite flush_and_close_database_eq.
    destruct (db_manager (self s)); [intros _|discriminate].
    destruct (console_view (self s)); [intros _|congruence].
    destruct (invoke env db_manager_flush (world s)) as [[v|e] w]; cbn [fst].
    + destruct (invoke env db_manager_close w) as [r w']. cbn [evs].
      change (calls (flushing :: Call db_manager_flush (Returns v) :: ?t))
        with (db_manager_flush :: calls t).
      rewrite calls_app, calls_reply_events. destruct r; reflexivity.
    + cbn [evs]. change (calls (flushing :: ?t)) with (calls t).
      apply calls_reply_events.
Qed.

(** The database is flushed after the producers were stopped. *)
Lemma flush_after_producers s r :
  In (Call db_manager_flush r) (evs (cleanup env s)) ->
  exists pre post,
    evs (cleanup env s) = pre ++ Call db_manager_flush r :: post /\
    subseq (calls pre)
      [cmd_controller_stop; ws_controller_close; visualizer_stop] = true /\
    subseq (calls post) [db_manager_close] = true /\
    (hasattr (cmd_controller (self s)) = true -> called cmd_controller_stop pre) /\
    (hasattr (ws_controller (self s)) = true -> called ws_controller_close pre) /\
    (hasattr (visualizer (self s)) = true ->
     exists b, In (Get_running b) pre /\ (b = true -> called visualizer_stop pre)).
Proof.
  intros Hin.
  assert (Hcv : console_view (self s) <> None).
  { intros Hn. rewrite (cleanup_no_console_view _ Hn) in Hin. destruct Hin. }
  pose proof (block_attempts (block_state env s Cmd)) as (A1 & _).
  pose proof (block_attempts (block_state env s Ws)) as (_ & A2 & _).
  pose proof (block_attempts (block_state env s Viz)) as (_ & _ & A3 & _).
  rewrite block_state_self in A1, A2, A3.
  pose proof (within_stop_command_controller (block_state env s Cmd)) as W1.
  pose proof (within_close_websocket (block_state env s Ws)) as W2.
  pose proof (within_stop_visualization (block_state env s Viz)) as W3.
  pose proof (@flush_owner Cmd (block_state env s Cmd) r) as F1.
  pose proof (@flush_owner Ws (block_state env s Ws) r) as F2.
  pose proof (@flush_owner Viz (block_state env s Viz) r) as F3.
  pose proof (@flush_split (block_state env s Db) r) as F4.
  revert Hin. rewrite cleanup_trace by assumption. cbv zeta.
  unfold block_state, run_block in *.
  set (o1 := stop_command_controller env s) in *.
  set (o2 := close_websocket env (post o1)) in *.
  set (o3 := stop_visualization env (post o2)) in *.
  set (o4 := flush_and_close_database env (post o3)) in *.
  intros [Hin|Hin]; [discriminate|].
  apply in_app_iff in Hin as [Hin|Hin]; [specialize (F1 Hin); discriminate|].
  apply in_app_iff in Hin as [Hin|Hin];
    [apply in_when in Hin as [_ Hin]; specialize (F2 Hin); discriminate|].
  apply in_app_iff in Hin as [Hin|Hin];
    [apply in_when in Hin as [_ Hin]; specialize (F3 Hin); discriminate|].
  apply in_app_iff in Hin as [Hin|Hin];
    [|apply in_when in Hin as [_ [Hin|[]]]; discriminate].
  apply in_when in Hin as [Hb Hin].
  apply andb_prop in Hb as [Hb R3]. apply andb_prop in Hb as [R1 R2].
  rewrite R1, R2, R3. cbn [andb when].
  destruct (F4 Hin) as (post4 & E4 & S4). rewrite E4.
  exists (starting :: evs o1 ++ evs o2 ++ evs o3 ++ [flushing]).
  exists (post4 ++ when (is_Ret (res o4)) [complete]).
  split; [|split; [|split; [|split; [|split]]]].
  - cbn [List.app]. rewrite <- !app_assoc. reflexivity.
  - change (calls (starting :: ?t)) with (calls t).
    rewrite !calls_app. cbn [calls flushing]. rewrite app_nil_r.
    change [cmd_controller_stop; ws_controller_close; visualizer_stop]
      with ([cmd_controller_stop] ++ [ws_controller_close] ++ [visualizer_stop]).
    apply subseq_app; [exact W1|]. apply subseq_app; [exact W2 | exact W3].
  - rewrite calls_app.
    replace (calls (when (is_Ret (res o4)) [complete])) with (@nil call)
      by (destruct (is_Ret (res o4)); reflexivity).
    rewrite app_nil_r. exact S4.
  - intros H. destruct (A1 H) as [r1 H1]. exists r1. right.
    rewrite in_app_iff. auto.
  - intros H. destruct (A2 H) as [r2 H2]. exists r2. right.
    rewrite !in_app_iff. auto.
  - intros H. destruct (A3 H) as (b & Hb & Hs). exists b. split.
    + right. rewrite !in_app_iff. auto.
    + intros Hb'. destruct (Hs Hb') as [r3 H3]. exists r3. right.
      rewrite !in_app_iff. auto.
Qed.

(** C2.  In every invocation of [cleanup] the teardown calls are made in the
    order of the source: stop of the command controller, close of the
    WebSocket controller, stop of the visualizer, flush and then close of the
    database manager.  Whatever the application object holds and however the
    collaborators answer, the calls made are calls of this list, in its order
    and each at most once; and when the database is flushed, the producers
    have been stopped before: the command controller and the WebSocket
    controller, if assigned, have been called, the visualizer's flag has been
    read and the visualizer stopped if it was running, and nothing but the
    close of the database comes after the flush.  On a constructed
    application, with no failure other than an [Exception], every step is
    performed: the calls are exactly these, the visualizer's stop being there
    when it was running and the database's close when the flush returned. *)
Theorem cleanup_teardown_order (s : state W) :
  subseq (calls (evs (cleanup env s))) teardown_order = true /\
  (forall r,
     In (Call db_manager_flush r) (evs (cleanup env s)) ->
     exists pre post,
       evs (cleanup env s) = pre ++ Call db_manager_flush r :: post /\
       subseq (calls pre)
         [cmd_controller_stop; ws_controller_close; visualizer_stop] = true /\
       subseq (calls post) [db_manager_close] = true /\
       (hasattr (cmd_controller (self s)) = true ->
        called cmd_controller_stop pre) /\
       (hasattr (ws_controller (self s)) = true ->
        called ws_controller_close pre) /\
       (hasattr (visualizer (self s)) = true ->
        exists b, In (Get_running b) pre /\
                  (b = true -> called visualizer_stop pre))) /\
  (constructed (self s) = true ->
   errors_only (evs (cleanup env s)) = true ->
   calls (evs (cleanup env s)) =
   [cmd_controller_stop; ws_controller_close] ++
   (if running env (world (block_state env s Viz))
    then [visualizer_stop] else []) ++
   db_manager_flush ::
   match fst (invoke env db_manager_flush (world (block_state env s Db))) with
   | Returns _ => [db_manager_close]
   | Raises _ => []
   end).
Proof.
  split; [apply cleanup_calls_in_order|].
  split; [intros r; apply flush_after_producers|].
  intros Hc Herr.
  pose proof (constructed_console_view _ Hc) as Hcv.
  destruct (cleanup_full_trace s Hcv Herr) as [_ Ht]. rewrite Ht.
  pose proof (block_calls (block_state env s Cmd)) as (C1 & _).
  pose proof (block_calls (block_state env s Ws)) as (_ & C2 & _).
  pose proof (block_calls (block_state env s Viz)) as (_ & _ & C3 & _).
  pose proof (block_calls (block_state env s Db)) as (_ & _ & _ & C4).
  rewrite block_state_self in C1, C2, C3, C4.
  change (calls (starting :: ?t)) with (calls t).
  rewrite !calls_app. unfold block_evs.
  rewrite (C1 (constructed_guard _ Cmd Hc)), (C2 (constructed_guard _ Ws Hc)),
    (C3 (constructed_guard _ Viz Hc)), (C4 (constructed_guard _ Db Hc) Hcv).
  cbn [calls complete]. rewrite app_nil_r. reflexivity.
Qed.

(** One invocation on a constructed application makes each of the three
    unconditional teardown calls once. *)
Lemma cleanup_times b s :
  b <> Viz -> constructed (self s) = true ->
  errors_only (evs (cleanup env s)) = true ->
  times (step_call b) (evs (cleanup env s)) = 1.
Proof.
  intros Hb Hc. pose proof (constructed_console_view _ Hc) as Hcv.
  intros Herr.
  assert (G : forall b', guard b' (self s) = true)
    by (intros; apply constructed_guard; assumption).
  assert (T : forall b',
             times (step_call b) (block_evs env s b') =
             if same_block b' b then 1 else 0).
  { intros b'. unfold block_evs. rewrite block_times; auto.
    - rewrite block_state_self, G, andb_true_r. reflexivity.
    - rewrite block_state_self. assumption. }
  destruct (cleanup_full_trace s Hcv Herr) as [_ ->].
  change (times (step_call b) (starting :: ?t)) with (times (step_call b) t).
  rewrite !times_app, !T.
  destruct b; try congruence; reflexivity.
Qed.

(** C1, as the code has it.  [cleanup] keeps no record of having run: on a
    constructed application, [n] invocations one after the other (none cut
    short by an exception that is not an [Exception]) stop the command
    controller [n] times, close the WebSocket controller [n] times and flush
    the database [n] times. *)
Theorem cleanup_runs_at_every_invocation (n : nat) (s : state W) :
  constructed (self s) = true ->
  errors_only (evs (cleanup_n_times env n s)) = true ->
  times cmd_controller_stop (evs (cleanup_n_times env n s)) = n /\
  times ws_controller_close (evs (cleanup_n_times env n s)) = n /\
  times db_manager_flush (evs (cleanup_n_times env n s)) = n.
Proof.
  revert s. induction n as [|n IH]; intros s Hc Herr.
  - repeat split; reflexivity.
  - simpl cleanup_n_times in *. rewrite evs_bind in *.
    rewrite errors_only_app in Herr. apply andb_prop in Herr as [H1 H2].
    destruct (cleanup_completes s (constructed_console_view _ Hc) H1)
      as (Hres & _).
    rewrite Hres in *.
    assert (Hc' : constructed (self (post (cleanup env s))) = true).
    { destruct (cleanup_untouched s) as (-> & _). assumption. }
    destruct (IH _ Hc' H2) as (I1 & I2 & I3).
    rewrite !times_app, I1, I2, I3.
    rewrite (cleanup_times (b:=Cmd)), (cleanup_times (b:=Ws)),
      (cleanup_times (b:=Db)); auto; discriminate.
Qed.

Ltac norm H :=
  cbv beta iota zeta delta
    [__init__ construct _setup_signal_handlers signal_signal atexit_register
     new_symbols_list deref update_self bind get getattr invoke_call ret emit
     raise set_args set_db_name set_symbols set_enable_viz set_batch_size
     set_trade_model set_order_book_model set_db_manager set_console_view
     set_gui_view set_visualizer set_ws_controller set_cmd_controller
     with_world self world sigint sigterm exit_hooks
     args db_name symbols enable_viz
     batch_size trade_model order_book_model db_manager console_view
     gui_view visualizer ws_controller cmd_controller
     app] in H.

Ltac next_call H :=
  match type of H with
  | context [invoke ?en ?c ?wo] =>
      destruct (invoke en c wo) as [[?v|?e] ?w] eqn:?E; cbv beta iota in H
  end.

Lemma init_post args0 s :
  res (__init__ env args0 s) = Ret tt ->
  constructed (self (post (__init__ env args0 s))) = true /\
  sigint (post (__init__ env args0 s)) = signal_handler_closure /\
  sigterm (post (__init__ env args0 s)) = signal_handler_closure /\
  exit_hooks (post (__init__ env args0 s)) = exit_hooks s ++ [cleanup_hook].
Proof.
  destruct (__init__ env args0 s) as [r s' t] eqn:H. cbn [res post].
  intros ->.
  destruct args0 as [a|]; norm H.
  - repeat (next_call H; try discriminate).
    injection H as <- _. simpl. auto.
  - next_call H; try discriminate. destruct v; cbv beta iota in H; try discriminate.
    repeat (next_call H; try discriminate).
    injection H as <- _. simpl. auto.
Qed.

Ltac members H :=
  cbn [In] in H;
  repeat match type of H with
         | _ \/ _ => destruct H as [H|H]
         end;
  try discriminate; try contradiction.

(** The application whose construction stopped in [ConsoleView(...)]
    (line 44): the database manager is assigned and the console view is not,
    and [cleanup] on it raises [AttributeError] at its first line, before any
    teardown step: the database is neither flushed nor closed. *)
Lemma cleanup_after_failed_ConsoleView (a : Args.t) (s : state W) (e : exn) :
  self s = blank ->
  In (Call (ConsoleView (APP_VERSION env)) (Raises e))
     (evs (__init__ env (Some a) s)) ->
  db_manager (self (post (__init__ env (Some a) s))) = Some Object /\
  console_view (self (post (__init__ env (Some a) s))) = None /\
  cleanup env (post (__init__ env (Some a) s)) =
  Out (Raise (AttributeError "console_view")) (post (__init__ env (Some a) s)) [].
Proof.
  intros Hs.
  destruct (__init__ env (Some a) s) as [r s' t] eqn:H. cbn [res post evs].
  intros Hin.
  assert (db_manager (self s') = Some Object /\ console_view (self s') = None).
  { destruct s as [app w si st h]. simpl in Hs. subst app.
    norm H.
    repeat (next_call H;
            [|injection H as <- <- <-; try (members Hin); simpl; auto]).
    injection H as <- <- <-. members Hin. }
  destruct H0 as [Hd Hc]. repeat split; auto.
  apply cleanup_no_console_view. assumption.
Qed.

(** ** The tracked symbols *)

Lemma same_symbols_refl (s : state W) : same_symbols s s.
Proof. split; reflexivity. Qed.

Lemma same_symbols_trans (s1 s2 s3 : state W) :
  same_symbols s1 s2 -> same_symbols s2 s3 -> same_symbols s1 s3.
Proof. unfold same_symbols. intuition congruence. Qed.

Lemma same_symbols_call :
  keeps_symbols env ->
  forall c s, same_symbols s (with_world (snd (invoke env c (world s))) s).
Proof. intros Hk c s. split; simpl; auto. Qed.

Ltac next_call_keeping Hk H :=
  match type of H with
  | context [invoke ?en ?c ?wo] =>
      let K := fresh "K" in
      pose proof (Hk c wo) as K;
      destruct (invoke en c wo) as [[?v|?e] ?w] eqn:?E;
      cbn [snd] in K; cbv beta iota in H
  end.

Ltac chain :=
  repeat match goal with
         | K : symbols_list ?w = _ |- _ => rewrite K in *; clear K
         end;
  cbn [symbols_list] in *.

(** C6.  When [__init__] has run to its end, [self.symbols] refers to the
    list of the configured symbols, each in upper case; the trade model, the
    order-book model and the visualization view were each constructed with
    that list, and nothing else; and neither [start] nor [cleanup] changes
    the list or rebinds [self.symbols].  The collaborators are taken not to
    change the list they were handed. *)
Theorem symbols_fixed_at_startup (args0 : option Args.t) (a : Args.t) (s : state W) :
  keeps_symbols env ->
  res (__init__ env args0 s) = Ret tt ->
  args (self (post (__init__ env args0 s))) = Some a ->
  (forall a', args0 = Some a' -> a' = a) /\
  symbols (self (post (__init__ env args0 s))) = Some SymbolsList /\
  symbols_list (world (post (__init__ env args0 s))) = map upper (Args.symbols a) /\
  (forall l r,
     In (Call (TradeModel l) r) (evs (__init__ env args0 s)) \/
     In (Call (OrderBookModel l) r) (evs (__init__ env args0 s)) \/
     In (Call (VisualizationView l) r) (evs (__init__ env args0 s)) ->
     l = map upper (Args.symbols a)) /\
  called (TradeModel (map upper (Args.symbols a))) (evs (__init__ env args0 s)) /\
  called (OrderBookModel (map upper (Args.symbols a))) (evs (__init__ env args0 s)) /\
  called (VisualizationView (map upper (Args.symbols a))) (evs (__init__ env args0 s)) /\
  (forall schedule s', same_symbols s' (post (start env schedule s'))) /\
  (forall s', same_symbols s' (post (cleanup env s'))).
Proof.
  intros Hk.
  assert (Hafter : (forall schedule s', same_symbols s' (post (start env schedule s'))) /\
                   (forall s', same_symbols s' (post (cleanup env s')))).
  { split; [intros schedule|].
    - apply (@preserves_start (@same_symbols W));
        [exact same_symbols_refl | exact same_symbols_trans
        | exact (same_symbols_call Hk)].
    - apply (@preserves_cleanup (@same_symbols W));
        [exact same_symbols_refl | exact same_symbols_trans
        | exact (same_symbols_call Hk)]. }
  destruct Hafter as [Hstart Hcleanup].
  destruct (__init__ env args0 s) as [r s' t] eqn:H. cbn [res post evs].
  intros -> Ha.
  destruct args0 as [a0|]; norm H.
  - repeat (next_call_keeping Hk H; try discriminate).
    injection H as <- <-. cbn [self world args symbols] in Ha |- *.
    injection Ha as ->. chain.
    refine (conj _ (conj eq_refl (conj eq_refl (conj _ (conj _ (conj _ (conj _
             (conj Hstart Hcleanup)))))))).
    + intros a' Ha'; congruence.
    + intros l r Hin. cbn [In] in Hin.
      decompose [or] Hin; clear Hin; try congruence; contradiction.
    + eexists; cbn [In]; auto 15.
    + eexists; cbn [In]; auto 15.
    + eexists; cbn [In]; auto 15.
  - next_call_keeping Hk H; try discriminate.
    destruct v; cbv beta iota in H; try discriminate.
    repeat (next_call_keeping Hk H; try discriminate).
    injection H as <- <-. cbn [self world args symbols] in Ha |- *.
    injection Ha as ->. chain.
    refine (conj _ (conj eq_refl (conj eq_refl (conj _ (conj _ (conj _ (conj _
             (conj Hstart Hcleanup)))))))).
    + intros a' Ha'; discriminate.
    + intros l r Hin. cbn [In] in Hin.
      decompose [or] Hin; clear Hin; try congruence; contradiction.
    + eexists; cbn [In]; auto 15.
    + eexists; cbn [In]; auto 15.
    + eexists; cbn [In]; auto 15.
Qed.

(** ** What a computation can leave in the trace *)

Section Only.

Variable P : event -> Prop.

Lemma only_bind A B (m : M W A) (f : A -> M W B) :
  only P m -> (forall a, only P (f a)) -> only P (bind m f).
Proof.
  intros Hm Hf s ev. rewrite evs_bind, in_app_iff. intros [H|H].
  - eapply Hm; eauto.
  - destruct (res (m s)); try destruct H. eapply Hf; eauto.
Qed.

Lemma only_ret A (a : A) : only P (ret (W:=W) a).
Proof. intros s ev []. Qed.

Lemma only_raise A e : only P (raise (W:=W) (A:=A) e).
Proof. intros s ev []. Qed.

Lemma only_stop A h : only P (stop (W:=W) (A:=A) h).
Proof. intros s ev []. Qed.

Lemma only_get : only P (get (W:=W)).
Proof. intros s ev []. Qed.

Lemma only_deref r : only P (deref (W:=W) r).
Proof. intros s ev []. Qed.

Lemma only_getattr A name (f : CryptoMonitorApp -> option A) :
  only P (getattr (W:=W) name f).
Proof. intros s ev. unfold getattr. destruct (f (self s)); intros []. Qed.

Lemma only_emit ev : P ev -> only P (emit (W:=W) ev).
Proof. intros H s ev' [<-|[]]. assumption. Qed.

Lemma only_invoke_call c : (forall r, P (Call c r)) -> only P (invoke_call env c).
Proof.
  intros H s ev. unfold invoke_call.
  destruct (invoke env c (world s)) as [[v|e] w]; intros [<-|[]]; apply H.
Qed.

Lemma only_visualizer_running :
  (forall b, P (Get_running b)) -> only P (visualizer_running env).
Proof. intros H s ev [<-|[]]. apply H. Qed.

Lemma only_try_except_Exception (body : M W unit) (handler : exn -> M W unit) :
  only P body -> (forall e, only P (handler e)) ->
  only P (try_except_Exception body handler).
Proof.
  intros Hb Hh s ev. unfold try_except_Exception.
  specialize (Hb s). destruct (body s) as [[a|e|h] s1 t1]; cbn [evs] in *; auto.
  destruct (is_Exception e); cbn [evs]; auto.
  specialize (Hh e s1). destruct (handler e s1) as [r s2 t2]; cbn [evs] in *.
  rewrite in_app_iff. intros [H|H]; auto.
Qed.

Lemma only_try_except_KeyboardInterrupt (body handler : M W unit) :
  only P body -> only P handler -> only P (try_except_KeyboardInterrupt body handler).
Proof.
  intros Hb Hh s ev. unfold try_except_KeyboardInterrupt.
  specialize (Hb s). destruct (body s) as [[a|e|h] s1 t1]; cbn [evs] in *; auto.
  destruct (is_KeyboardInterrupt e); cbn [evs]; auto.
  specialize (Hh s1). destruct (handler s1) as [r s2 t2]; cbn [evs] in *.
  rewrite in_app_iff. intros [H|H]; auto.
Qed.

Lemma only_try_finally (body final : M W unit) :
  only P body -> only P final -> only P (try_finally body final).
Proof.
  intros Hb Hf s ev. unfold try_finally.
  specialize (Hb s). destruct (body s) as [[a|e|h] s1 t1]; cbn [evs] in *; auto;
    specialize (Hf s1); destruct (final s1) as [[a2|e2|h2] s2 t2];
    cbn [evs] in *; rewrite in_app_iff; intros [H|H]; auto.
Qed.

Hypothesis P_info : forall m p, P (print_info m p).
Hypothesis P_success : forall m, P (print_success m).
Hypothesis P_error : forall m, P (print_error m).
Hypothesis P_print : forall m, P (print m).

Ltac only_tac :=
  repeat first
    [ progress intros
    | assumption
    | apply only_ret | apply only_raise | apply only_stop | apply only_get
    | apply only_deref | apply only_getattr
    | apply only_emit; solve [auto]
    | apply only_invoke_call; solve [auto]
    | apply only_visualizer_running; solve [auto]
    | apply only_bind
    | apply only_try_except_Exception
    | apply only_try_except_KeyboardInterrupt
    | apply only_try_finally
    | match goal with |- only P (if ?b then _ else _) => destruct b end
    | match goal with |- only P (match ?x with _ => _ end) => destruct x end ].

Lemma only_startup :
  (forall c r, is_startup_call c = true -> P (Call c r)) -> only P (startup env).
Proof.
  intros Hc.
  unfold startup, start_visualization, console_view_print_info,
    console_view_print_success, console_view_print_error.
  only_tac.
Qed.

Lemma only_silent A (m : M W A) : (forall s, evs (m s) = []) -> only P m.
Proof. intros H s ev. rewrite H. intros []. Qed.

Lemma only_init args0 :
  (forall c r, P (Call c r)) -> only P (__init__ env args0).
Proof.
  intros Hc.
  assert (U : forall f, only P (update_self (W:=W) f))
    by (intros; apply only_silent; reflexivity).
  assert (N : forall l, only P (new_symbols_list (W:=W) l))
    by (intros; apply only_silent; reflexivity).
  assert (S : forall sig d, only P (signal_signal (W:=W) sig d))
    by (intros sig d; apply only_silent; intros s; destruct sig; reflexivity).
  assert (X : forall h, only P (atexit_register (W:=W) h))
    by (intros; apply only_silent; reflexivity).
  unfold __init__, construct, _setup_signal_handlers.
  only_tac.
Qed.

Hypothesis P_running : forall b, P (Get_running b).
Hypothesis P_teardown : forall c r, is_teardown_call c = true -> P (Call c r).

Lemma only_cleanup : only P (cleanup env).
Proof.
  unfold cleanup, stop_command_controller, close_websocket, stop_visualization,
    visualizer_is_running, flush_and_close_database, console_view_print_info,
    console_view_print_success.
  only_tac.
Qed.

Lemma only_run_exit_hooks hooks : only P (run_exit_hooks env hooks).
Proof.
  induction hooks as [|h rest IH]; simpl.
  - apply only_ret.
  - apply only_bind; auto.
    intros s ev. destruct h; simpl.
    pose proof (only_cleanup s ev) as H.
    destruct (cleanup env s) as [[a|e|h] s1 t1]; cbn [evs] in *; auto.
Qed.

Hypothesis P_sleep : forall t, P (time_sleep t).

Lemma only_keep_alive schedule : only P (keep_alive env schedule).
Proof.
  pose proof only_cleanup.
  induction schedule as [|t rest IH]; simpl.
  - apply only_stop.
  - unfold sleep, signal_handler. only_tac.
Qed.

Lemma only_keep_main_thread_alive schedule :
  only P (keep_main_thread_alive env schedule).
Proof.
  pose proof only_cleanup. pose proof (only_keep_alive schedule).
  unfold keep_main_thread_alive, console_view_print_info. only_tac.
Qed.

End Only.

(** ** [start] *)

Lemma try_finally_eq (body final : M W unit) s :
  try_finally body final s =
  match res (body s) with
  | Halt h => Out (Halt h) (post (body s)) (evs (body s))
  | r =>
      Out match res (final (post (body s))) with
          | Ret _ => r
          | r2 => r2
          end
          (post (final (post (body s))))
          (evs (body s) ++ evs (final (post (body s))))
  end.
Proof.
  unfold try_finally.
  destruct (body s) as [[a|e|h] s1 t1]; cbn [res post evs]; auto;
    destruct (final s1) as [[a2|e2|h2] s2 t2]; reflexivity.
Qed.

(** Leaving the guarded loop other than by a halt runs [cleanup] last. *)
Lemma keep_main_thread_alive_runs_cleanup schedule s :
  (forall h, res (keep_main_thread_alive env schedule s) <> Halt h) ->
  evs (keep_main_thread_alive env schedule s) =
  evs (guarded_loop env schedule s) ++ evs (cleanup env (post (guarded_loop env schedule s))).
Proof.
  unfold keep_main_thread_alive. fold (guarded_loop env schedule).
  rewrite try_finally_eq.
  destruct (res (guarded_loop env schedule s)); cbn [res evs]; auto.
  intros H. destruct (H h). reflexivity.
Qed.

Lemma guarded_loop_untouched schedule s :
  untouched s (post (guarded_loop env schedule s)).
Proof.
  revert s. change (preserves (@untouched W) (guarded_loop env schedule)).
  unfold guarded_loop.
  apply preserves_try_except_KeyboardInterrupt;
    try exact untouched_refl; try exact untouched_trans.
  - apply preserves_keep_alive;
      [exact untouched_refl | exact untouched_trans
      | exact untouched_call].
  - apply preserves_console_view_print_info;
      [exact untouched_refl | exact untouched_trans].
Qed.

Lemma startup_untouched s : untouched s (post (startup env s)).
Proof.
  revert s. change (preserves (@untouched W) (startup env)).
  apply preserves_startup;
    [exact untouched_refl | exact untouched_trans | exact untouched_call].
Qed.

Lemma startup_reads_console_view s :
  res (startup env s) = Ret tt -> console_view (self s) <> None.
Proof.
  unfold startup. rewrite res_bind. unfold getattr at 1.
  destruct (console_view (self s)); cbn [res]; congruence.
Qed.

Lemma not_sleep_in_startup s t : ~ In (time_sleep t) (evs (startup env s)).
Proof.
  intros H.
  apply (@only_startup (fun ev => forall t, ev <> time_sleep t)) in H;
    try discriminate.
  apply (H t). reflexivity.
Qed.

(** C5, as the code has it.  When [start] returns, or is left by an exception
    once the main thread has slept in the keep-alive loop, the last thing it
    did was to run [cleanup], which printed its first line. *)
Theorem start_leaves_through_cleanup (schedule : list tick) (s : state W) :
  res (start env schedule s) = Ret tt \/
  ((exists t, In (time_sleep t) (evs (start env schedule s))) /\
   forall h, res (start env schedule s) <> Halt h) ->
  exists pre s1,
    evs (start env schedule s) = pre ++ evs (cleanup env s1) /\
    In (print_info "Cleaning up application resources..." false)
       (evs (cleanup env s1)).
Proof.
  unfold start. rewrite bind_eq.
  destruct (res (startup env s)) eqn:R; cbn [res evs].
  - intros H.
    assert (Hh : forall h, res (keep_main_thread_alive env schedule
                                  (post (startup env s))) <> Halt h).
    { destruct H as [H|[_ H]]; [congruence|assumption]. }
    exists (evs (startup env s) ++ evs (guarded_loop env schedule (post (startup env s)))).
    exists (post (guarded_loop env schedule (post (startup env s)))).
    split.
    + rewrite keep_main_thread_alive_runs_cleanup by assumption.
      rewrite app_assoc. reflexivity.
    + destruct a. apply startup_reads_console_view in R.
      rewrite cleanup_trace.
      * left. reflexivity.
      * destruct (guarded_loop_untouched schedule (post (startup env s))) as [-> _].
        destruct (startup_untouched s) as [-> _]. assumption.
  - intros [H|[[t H] _]]; [discriminate|].
    destruct (not_sleep_in_startup _ _ H).
  - intros [H|[_ H]]; [discriminate|]. destruct (H h). reflexivity.
Qed.

Ltac norm_startup H :=
  cbv beta iota zeta delta
    [startup start_visualization console_view_print_info
     console_view_print_success console_view_print_error
     deref bind get getattr invoke_call ret emit raise
     with_world self world sigint sigterm exit_hooks
     args db_name symbols enable_viz batch_size trade_model order_book_model
     db_manager console_view gui_view visualizer ws_controller cmd_controller
     app] in H.

Ltac all_assigned Hc :=
  unfold constructed in Hc; cbn [args db_name symbols enable_viz batch_size
    trade_model order_book_model db_manager console_view gui_view visualizer
    ws_controller cmd_controller] in Hc;
  repeat (apply andb_prop in Hc as [Hc ?]);
  repeat match goal with
         | H : hasattr ?x = true |- _ =>
             destruct x; [clear H | discriminate H]
         end.

Lemma no_startup_call_in_loop schedule s c r :
  In (Call c r) (evs (keep_main_thread_alive env schedule s)) ->
  is_startup_call c = false.
Proof.
  intros H.
  apply (@only_keep_main_thread_alive
           (fun ev => forall c r, ev = Call c r -> is_teardown_call c = true))
    in H; try discriminate.
  - specialize (H c r eq_refl). destruct c; try discriminate; reflexivity.
  - intros c' r' Hc c'' r'' E. injection E as <- <-. assumption.
Qed.

(** C7.  On a constructed application whose listener and connection calls
    returned, [start] calls the visualizer's [start()] exactly when the
    visualization flag is set; and when [start()] returns a false value, the
    failure is reported through the console view, the help line follows, and
    [start] goes on into the keep-alive loop: what it does from there, and how
    it ends, is what the loop does. *)
Theorem visualization_started_iff_enabled (schedule : list tick) (s : state W) :
  constructed (self s) = true ->
  (exists v, In (Call ws_controller_connect (Returns v))
                (evs (start env schedule s))) ->
  (called visualizer_start (evs (start env schedule s)) <->
   enable_viz (self s) = Some true) /\
  (forall v,
     In (Call visualizer_start (Returns v)) (evs (start env schedule s)) ->
     truthy v = false ->
     exists pre s',
       evs (start env schedule s) =
       pre ++
       print_error
         "Failed to start visualization. Make sure you have required packages installed."
       :: print_info help_line true
       :: evs (keep_main_thread_alive env schedule s') /\
       res (start env schedule s) = res (keep_main_thread_alive env schedule s')).
Proof.
  intros Hc [vc Hconn]. revert Hconn.
  unfold start. rewrite bind_eq.
  pose proof (no_startup_call_in_loop schedule) as Hloop.
  destruct (startup env s) as [r s1 t1] eqn:H. cbn [res post evs].
  destruct s as [a w si st h]. destruct a. cbn [self] in Hc |- *.
  all_assigned Hc. norm_startup H.
  next_call H;
    [|injection H as <- <- <-; cbn [evs]; intros Hconn; members Hconn].
  next_call H;
    [|injection H as <- <- <-; cbn [evs]; intros Hconn; members Hconn].
  match type of H with context [if ?b then _ else _] => destruct b end;
    cbv beta iota in H.
  - next_call H.
    + match type of H with
      | context [truthy ?x] => destruct (truthy x) eqn:T
      end; cbv beta iota in H;
        injection H as <- <- <-; cbn [res evs]; intros _; split.
      * split; [reflexivity|]. intros _. eexists.
        rewrite in_app_iff. left. cbn [In]. auto 10.
      * intros x Hx Hf. rewrite in_app_iff in Hx. destruct Hx as [Hx|Hx].
        -- members Hx. congruence.
        -- apply Hloop in Hx. discriminate.
      * split; [reflexivity|]. intros _. eexists.
        rewrite in_app_iff. left. cbn [In]. auto 10.
      * intros x Hx Hf. eexists (_ :: _ :: _ :: _ :: _ :: _ :: nil). eexists.
        split; reflexivity.
    + injection H as <- <- <-. cbn [res evs]. intros _. split.
      * split; [reflexivity|]. intros _. eexists. cbn [In]. auto 10.
      * intros x Hx. members Hx.
  - injection H as <- <- <-. cbn [res evs]. intros _. split.
    + split; [|discriminate]. intros [r Hr].
      rewrite in_app_iff in Hr. destruct Hr as [Hr|Hr].
      * members Hr.
      * apply Hloop in Hr. discriminate.
    + intros x Hx. rewrite in_app_iff in Hx. destruct Hx as [Hx|Hx].
      * members Hx.
      * apply Hloop in Hx. discriminate.
Qed.

(** ** Signals *)

Lemma sleep_Deliver sig s :
  handler_of sig s = signal_handler_closure ->
  sleep env (Deliver sig) s =
  Out match res (cleanup env s) with
      | Ret _ => Raise (SystemExit 0)
      | Raise e => Raise e
      | Halt h => Halt h
      end
      (post (cleanup env s))
      (time_sleep (Deliver sig) :: received :: evs (cleanup env s)).
Proof.
  unfold handler_of, sleep, signal_handler, bind, emit, get, raise. cbn [res post evs].
  intros H. rewrite H.
  destruct sig; destruct (cleanup env s) as [[a|e|h] s1 t1];
    cbn [res post evs app]; rewrite ?app_nil_r; reflexivity.
Qed.

Lemma not_sleep_in_cleanup s t : ~ In (time_sleep t) (evs (cleanup env s)).
Proof.
  intros H.
  apply (@only_cleanup (fun ev => forall t, ev <> time_sleep t)) in H;
    try discriminate.
  apply (H t). reflexivity.
Qed.

Lemma not_sleep_in_init args0 s t : ~ In (time_sleep t) (evs (__init__ env args0 s)).
Proof.
  intros H.
  apply (@only_init (fun ev => forall t, ev <> time_sleep t)) in H;
    try discriminate.
  apply (H t). reflexivity.
Qed.

Lemma not_sleep_in_exit_hooks hooks s t :
  ~ In (time_sleep t) (evs (run_exit_hooks env hooks s)).
Proof.
  intros H.
  apply (@only_run_exit_hooks (fun ev => forall t, ev <> time_sleep t)) in H;
    try discriminate.
  apply (H t). reflexivity.
Qed.

Lemma keep_main_thread_alive_prefix schedule s :
  exists y,
    evs (keep_main_thread_alive env schedule s) =
    evs (keep_alive env schedule s) ++ y /\
    forall t, ~ In (time_sleep t) y.
Proof.
  unfold keep_main_thread_alive, try_finally, try_except_KeyboardInterrupt.
  destruct (keep_alive env schedule s) as [[a|e|h] sk tk]; cbn [evs].
  - pose proof (not_sleep_in_cleanup sk) as N.
    destruct (cleanup env sk) as [[a'|e'|h'] sc tc]; cbn [evs] in *; eauto.
  - destruct (is_KeyboardInterrupt e).
    + rewrite console_view_print_info_eq.
      destruct (console_view (self sk)).
      * pose proof (not_sleep_in_cleanup sk) as N.
        destruct (cleanup env sk) as [[a'|e'|h'] sc tc]; cbn [evs] in *;
          rewrite <- app_assoc; eexists; (split; [reflexivity|]);
          intros t [H|H]; try discriminate; apply (N t H).
      * pose proof (not_sleep_in_cleanup sk) as N.
        destruct (cleanup env sk) as [[a'|e'|h'] sc tc]; cbn [evs] in *;
          rewrite app_nil_r; eauto.
    + pose proof (not_sleep_in_cleanup sk) as N.
      destruct (cleanup env sk) as [[a'|e'|h'] sc tc]; cbn [evs] in *; eauto.
  - exists []. rewrite app_nil_r. auto.
Qed.

Lemma block_never_halts b s h : res (run_block env b s) <> Halt h.
Proof.
  assert (N : forall r, reply_result r <> Halt h).
  { intros [v|e]; cbn; [|destruct (is_Exception e)]; discriminate. }
  destruct b; cbn [run_block].
  - rewrite stop_command_controller_eq.
    destruct (cmd_controller (self s)); [|discriminate].
    destruct (invoke env cmd_controller_stop (world s)) as [r w]. apply N.
  - rewrite close_websocket_eq.
    destruct (ws_controller (self s)); [|discriminate].
    destruct (invoke env ws_controller_close (world s)) as [r w]. apply N.
  - rewrite stop_visualization_eq.
    destruct (visualizer (self s)); [|discriminate].
    destruct (running env (world s)); [|discriminate].
    destruct (invoke env visualizer_stop (world s)) as [r w]. apply N.
  - rewrite flush_and_close_database_eq.
    destruct (db_manager (self s)); [|discriminate].
    destruct (console_view (self s)); [|discriminate].
    destruct (invoke env db_manager_flush (world s)) as [[v|e] w].
    + destruct (invoke env db_manager_close w) as [r w']. apply N.
    + apply N.
Qed.

Lemma cleanup_never_halts s h : res (cleanup env s) <> Halt h.
Proof.
  rewrite cleanup_eq.
  destruct (console_view (self s)); [|discriminate]. cbv zeta.
  set (o1 := stop_command_controller env s).
  set (o2 := close_websocket env (post o1)).
  set (o3 := stop_visualization env (post o2)).
  set (o4 := flush_and_close_database env (post o3)).
  pose proof (block_never_halts Cmd s) as N1.
  pose proof (block_never_halts Ws (post o1)) as N2.
  pose proof (block_never_halts Viz (post o2)) as N3.
  pose proof (block_never_halts Db (post o3)) as N4.
  cbn [run_block] in N1, N2, N3, N4. fold o1 in N1. fold o2 in N2.
  fold o3 in N3. fold o4 in N4.
  destruct (res o1) as [[]|e1|h1]; cbn [res]; try discriminate;
    [|intros E; injection E as ->; apply (N1 h); reflexivity].
  destruct (res o2) as [[]|e2|h2]; cbn [res]; try discriminate;
    [|intros E; injection E as ->; apply (N2 h); reflexivity].
  destruct (res o3) as [[]|e3|h3]; cbn [res]; try discriminate;
    [|intros E; injection E as ->; apply (N3 h); reflexivity].
  destruct (res o4) as [[]|e4|h4]; cbn [res]; try discriminate.
  intros E; injection E as ->; apply (N4 h); reflexivity.
Qed.

Lemma run_exit_hooks_never_halts hooks s h :
  res (run_exit_hooks env hooks s) <> Halt h.
Proof.
  revert s. induction hooks as [|k rest IH]; intros s; cbn [run_exit_hooks].
  - discriminate.
  - rewrite res_bind. destruct k. cbn [run_hook].
    pose proof (cleanup_never_halts s) as N.
    destruct (cleanup env s) as [[a|e|h'] s1 t1]; cbn [res post] in *.
    + apply IH.
    + apply IH.
    + destruct (N h'). reflexivity.
Qed.



(** * Further properties of the code *)

(** ** [__init__] *)

(** X1.  When [__init__] returns, every attribute of the application is
    assigned, the configuration attributes hold the values of the parsed
    arguments, both signals are handled by [signal_handler], and [cleanup] is
    the last atexit hook registered, after the hooks that were there. *)
Theorem init_assigns_and_registers (args0 : option Args.t) (s : state W) :
  res (__init__ env args0 s) = Ret tt ->
  constructed (self (post (__init__ env args0 s))) = true /\
  (exists a,
     args (self (post (__init__ env args0 s))) = Some a /\
     db_name (self (post (__init__ env args0 s))) = Some (Args.db_name a) /\
     enable_viz (self (post (__init__ env args0 s))) = Some (Args.viz a) /\
     batch_size (self (post (__init__ env args0 s))) = Some (Args.batch_size a)) /\
  handler_of SIGINT (post (__init__ env args0 s)) = signal_handler_closure /\
  handler_of SIGTERM (post (__init__ env args0 s)) = signal_handler_closure /\
  exit_hooks (post (__init__ env args0 s)) = exit_hooks s ++ [cleanup_hook].
Proof.
  destruct (__init__ env args0 s) as [r s' t] eqn:H. cbn [res post].
  intros ->. destruct s as [obj w si st h].
  destruct args0 as [a|]; norm H.
  - repeat (next_call H; try discriminate).
    injection H as <- _. cbn. repeat split; eauto 7.
  - next_call H; try discriminate.
    destruct v; cbv beta iota in H; try discriminate.
    repeat (next_call H; try discriminate).
    injection H as <- _. cbn. repeat split; eauto 7.
Qed.

Ltac split_last :=
  match goal with
  | |- exists pre c r, ?l = _ /\ _ =>
      exists (removelast l); do 2 eexists; split; [reflexivity|]
  end.

(** X2.  When [__init__] raises, the signal table and the atexit hooks are
    as they were: no handler is installed and [cleanup] is not registered.
    The trace ends with the call that made it fail, and no call before it
    raised. *)
Theorem init_failure_registers_nothing
    (args0 : option Args.t) (s : state W) (e : exn) :
  res (__init__ env args0 s) = Raise e ->
  sigint (post (__init__ env args0 s)) = sigint s /\
  sigterm (post (__init__ env args0 s)) = sigterm s /\
  exit_hooks (post (__init__ env args0 s)) = exit_hooks s /\
  exists pre c r,
    evs (__init__ env args0 s) = pre ++ [Call c r] /\
    forall c' e', ~ In (Call c' (Raises e')) pre.
Proof.
  destruct (__init__ env args0 s) as [r s' t] eqn:H. cbn [res post evs].
  intros ->. destruct s as [obj w si st h]. cbn [sigint sigterm exit_hooks].
  destruct args0 as [a|]; norm H.
  - repeat (next_call H;
            [|injection H as <- <- <-; repeat (split; [reflexivity|]);
              split_last; cbn [removelast]; intros c' e' Hin; members Hin]).
    discriminate.
  - next_call H;
      [|injection H as <- <- <-; repeat (split; [reflexivity|]);
        split_last; cbn [removelast]; intros c' e' Hin; members Hin].
    destruct v; cbv beta iota in H;
      try (injection H as <- <- <-; repeat (split; [reflexivity|]);
           split_last; cbn [removelast]; intros c' e' Hin; members Hin).
    repeat (next_call H;
            [|injection H as <- <- <-; repeat (split; [reflexivity|]);
              split_last; cbn [removelast]; intros c' e' Hin; members Hin]).
    discriminate.
Qed.

(** X3.  Given its arguments, [__init__] calls the constructors in the order
    of the source, each with the configured values (the upper-case symbols,
    the database name and batch size, the version), and stops at the first
    that raises: the calls made are a prefix of that order, and the whole of
    it when [__init__] returns.  The collaborators are taken not to change
    the list they were handed. *)
Theorem init_construction_order (a : Args.t) (s : state W) :
  keeps_symbols env ->
  (exists rest,
     construction_order env a = calls (evs (__init__ env (Some a) s)) ++ rest) /\
  (res (__init__ env (Some a) s) = Ret tt ->
   calls (evs (__init__ env (Some a) s)) = construction_order env a).
Proof.
  intros Hk.
  destruct (__init__ env (Some a) s) as [r s' t] eqn:H. cbn [res evs].
  destruct s as [obj w si st h]. norm H.
  repeat (next_call_keeping Hk H;
          [|injection H as <- _ <-; chain; cbn [calls]; unfold construction_order;
            split; [eexists; cbn [List.app]; reflexivity | discriminate]]).
  injection H as <- _ <-. chain. cbn [calls]. unfold construction_order.
  split; [exists []; reflexivity | reflexivity].
Qed.

(** X4.  [parse_arguments()] is called exactly when no arguments are passed
    to the constructor. *)
Theorem init_parses_iff_no_args (args0 : option Args.t) (s : state W) :
  called parse_arguments (evs (__init__ env args0 s)) <-> args0 = None.
Proof.
  destruct (__init__ env args0 s) as [r s' t] eqn:H. cbn [evs].
  destruct s as [obj w si st h].
  destruct args0 as [a|]; norm H.
  - split; [|discriminate]. intros [x Hx]. exfalso. revert Hx.
    repeat (next_call H; [|injection H as _ _ <-; intros Hx; members Hx]).
    injection H as _ _ <-. intros Hx; members Hx.
  - split; [reflexivity|]. intros _.
    next_call H; [|injection H as _ _ <-; eexists; left; reflexivity].
    destruct v; cbv beta iota in H;
      try (injection H as _ _ <-; eexists; left; reflexivity).
    repeat (next_call H; [|injection H as _ _ <-; eexists; left; reflexivity]).
    injection H as _ _ <-; eexists; left; reflexivity.
Qed.

(** ** [start] before the loop *)

Ltac step H :=
  match type of H with
  | context [match ?x with Some _ => _ | None => _ end] =>
      is_var x; destruct x; cbv beta iota in H
  | context [invoke ?en ?c ?wo] =>
      destruct (invoke en c wo) as [[?v|?e] ?w] eqn:?E; cbv beta iota in H
  | context [if truthy ?x then _ else _] =>
      destruct (truthy x) eqn:?T; cbv beta iota in H
  | context [if ?b then _ else _] =>
      is_var b; destruct b; cbv beta iota in H
  end.

(** Every way [startup] can go from state [s], with its outcome in [H]. *)
Ltac startup_cases s H :=
  destruct s as [[] ? ? ? ?]; norm_startup H; repeat step H;
  injection H as <- <- <-.

(** X5.  Before the loop, [start] starts the command listener, then opens the
    WebSocket connection, then starts the visualization: the calls made are
    these, in this order, each at most once. *)
Theorem startup_call_order (s : state W) :
  subseq (calls (evs (startup env s)))
    [cmd_controller_start_listener; ws_controller_connect; visualizer_start] = true.
Proof.
  destruct (startup env s) as [r s' t] eqn:H. cbn [evs].
  startup_cases s H; reflexivity.
Qed.

Lemma startup_raise s c e :
  In (Call c (Raises e)) (evs (startup env s)) -> res (startup env s) = Raise e.
Proof.
  destruct (startup env s) as [r s' t] eqn:H. cbn [res evs].
  startup_cases s H; intros Hin; members Hin; congruence.
Qed.

(** X6.  An exception raised by a startup call (the listener, the connection
    or the visualization) is not handled by [start]: [start] ends with that
    exception, having done nothing after the call; it has not slept in the
    loop and has made no teardown call. *)
Theorem startup_failure_leaves_start
    (schedule : list tick) (s : state W) (c : call) (e : exn) :
  In (Call c (Raises e)) (evs (startup env s)) ->
  res (start env schedule s) = Raise e /\
  evs (start env schedule s) = evs (startup env s) /\
  (forall t, ~ In (time_sleep t) (evs (start env schedule s))) /\
  (forall c', In c' (calls (evs (start env schedule s))) ->
              is_teardown_call c' = false).
Proof.
  intros Hin. pose proof (startup_raise _ _ _ Hin) as R.
  unfold start. rewrite bind_eq, R. cbn [res evs].
  split; [reflexivity|]. split; [reflexivity|]. split.
  - intros t. apply not_sleep_in_startup.
  - intros c' Hc'.
    destruct (startup env s) as [r s' t] eqn:H. cbn [evs] in *.
    clear Hin R. revert Hc'.
    startup_cases s H; cbn [calls In]; intros Hc';
      decompose [or] Hc'; subst; try reflexivity; contradiction.
Qed.

(** X7.  The success message of the visualization is shown exactly when the
    visualizer's [start()] returned a true value. *)
Theorem visualization_success_iff_started (s : state W) :
  In (print_success
        "Visualization started. Open http://127.0.0.1:8050 in your browser.")
     (evs (startup env s)) <->
  exists v, In (Call visualizer_start (Returns v)) (evs (startup env s)) /\
            truthy v = true.
Proof.
  destruct (startup env s) as [r s' t] eqn:H. cbn [evs].
  startup_cases s H;
    (split;
     [ intros Hin; members Hin; eexists; (split; [|eassumption]);
       cbn [In]; auto 10
     | intros [x [Hin Hx]]; members Hin; try congruence; cbn [In]; auto 10 ]).
Qed.

(** ** The keep-alive loop *)

Lemma sleep_returns_only_when_quiet t s a :
  res (sleep env t s) = Ret a -> t = Quiet.
Proof.
  destruct t as [|sig|e]; [reflexivity| |].
  - unfold sleep, signal_handler, bind, emit, get, raise, stop. cbn [res post evs].
    destruct sig;
      [destruct (sigint s) | destruct (sigterm s)]; try discriminate;
      destruct (cleanup env s) as [[x|e|h] s1 t1]; discriminate.
  - discriminate.
Qed.

Lemma keep_alive_quiet n s :
  keep_alive env (repeat Quiet n) s =
  Out (Halt Asleep) s (repeat (time_sleep Quiet) n).
Proof.
  induction n as [|n IH]; [reflexivity|].
  cbn [repeat keep_alive]. rewrite bind_eq.
  change (sleep env Quiet s) with (Out (W:=W) (Ret tt) s [time_sleep Quiet]).
  cbn [res post evs]. rewrite IH. reflexivity.
Qed.

Lemma keep_alive_first n t rest s :
  t <> Quiet ->
  keep_alive env (repeat Quiet n ++ t :: rest) s =
  Out (res (sleep env t s)) (post (sleep env t s))
      (repeat (time_sleep Quiet) n ++ evs (sleep env t s)).
Proof.
  intros Ht. induction n as [|n IH].
  - cbn [repeat List.app keep_alive]. rewrite bind_eq.
    pose proof (@sleep_returns_only_when_quiet t s) as N.
    destruct (res (sleep env t s)) as [a|e|h]; [|reflexivity|reflexivity].
    destruct Ht. apply (N a). reflexivity.
  - cbn [repeat List.app keep_alive]. rewrite bind_eq.
    change (sleep env Quiet s) with (Out (W:=W) (Ret tt) s [time_sleep Quiet]).
    cbn [res post evs]. rewrite IH. reflexivity.
Qed.

(** X8.  The keep-alive loop has no exit of its own.  While each sleep passes
    quietly the main thread stays in it and the state is as it was; the first
    sleep during which a signal or an exception arrives ends the loop with
    the outcome of that sleep, which is never a normal return, and what the
    environment would do afterwards is not looked at. *)
Theorem keep_alive_ends_at_first_event
    (n : nat) (t : tick) (rest : list tick) (s : state W) :
  t <> Quiet ->
  keep_alive env (repeat Quiet n) s =
  Out (Halt Asleep) s (repeat (time_sleep Quiet) n) /\
  keep_alive env (repeat Quiet n ++ t :: rest) s =
  Out (res (sleep env t s)) (post (sleep env t s))
      (repeat (time_sleep Quiet) n ++ evs (sleep env t s)) /\
  forall a, res (sleep env t s) <> Ret a.
Proof.
  intros Ht. split; [apply keep_alive_quiet|].
  split; [apply keep_alive_first; assumption|].
  intros a H. apply Ht. exact (sleep_returns_only_when_quiet _ _ H).
Qed.

(** X9.  When an exception is raised in the main thread during a sleep of the
    loop, [start] runs [cleanup] once, from the state the loop was in; a
    [KeyboardInterrupt] is announced by the message of line 113 and absorbed,
    so that the guarded loop returns normally; any other exception is raised
    again after [cleanup], unless [cleanup] itself ends in an exception, which
    then takes its place. *)
Theorem loop_exception_runs_cleanup
    (n : nat) (e : exn) (rest : list tick) (s : state W) :
  console_view (self s) <> None ->
  evs (keep_main_thread_alive env (repeat Quiet n ++ Throw e :: rest) s) =
  repeat (time_sleep Quiet) n ++
  time_sleep (Throw e) ::
  (if is_KeyboardInterrupt e then [print_info "Shutting down..." false] else []) ++
  evs (cleanup env s) /\
  res (keep_main_thread_alive env (repeat Quiet n ++ Throw e :: rest) s) =
  match res (cleanup env s) with
  | Ret _ => if is_KeyboardInterrupt e then Ret tt else Raise e
  | r => r
  end.
Proof.
  intros Hcv.
  unfold keep_main_thread_alive, try_finally, try_except_KeyboardInterrupt.
  rewrite keep_alive_first by discriminate.
  change (sleep env (Throw e) s)
    with (Out (W:=W) (A:=unit) (Raise e) s [time_sleep (Throw e)]).
  cbn [res post evs].
  destruct (is_KeyboardInterrupt e).
  - rewrite console_view_print_info_eq.
    destruct (console_view (self s)); [|congruence].
    destruct (cleanup env s) as [[[]|e'|h'] s1 t1]; cbn [res evs];
      rewrite <- !app_assoc; split; reflexivity.
  - destruct (cleanup env s) as [[[]|e'|h'] s1 t1]; cbn [res evs];
      rewrite <- !app_assoc; split; reflexivity.
Qed.

(** ** [cleanup] *)

(** X10.  The success message of the database step is shown exactly when
    [db_manager.close()] returned. *)
Theorem database_success_iff_closed (s : state W) :
  In (print_success "Database closed successfully.") (evs (cleanup env s)) <->
  exists v, In (Call db_manager_close (Returns v)) (evs (cleanup env s)).
Proof.
  pose proof (flush_and_close_database_shape (block_state env s Db)) as Hs.
  cbv zeta in Hs. fold (run_block env Db) in Hs. fold (block_evs env s Db) in Hs.
  assert (Hdb : forall ev, owner ev = Some Db -> In ev (evs (cleanup env s)) ->
            In ev (block_evs env s Db) /\
            incl (block_evs env s Db) (evs (cleanup env s)))
    by (intros; apply cleanup_event_owner; auto).
  split.
  - intros Hin. apply Hdb in Hin as [Hin Hi]; [|reflexivity].
    destruct Hs as [E|[E|[[e E]|(v & r & E)]]]; rewrite E in Hin, Hi;
      try (in_cases Hin; fail).
    destruct r as [v'|e'].
    + exists v'. apply Hi. right. right. left. reflexivity.
    + in_cases Hin.
  - intros [v Hin]. apply Hdb in Hin as [Hin Hi]; [|reflexivity].
    destruct Hs as [E|[E|[[e E]|(v0 & r & E)]]]; rewrite E in Hin, Hi;
      try (in_cases Hin; fail).
    destruct r as [v'|e'].
    + apply Hi. right. right. rewrite in_app_iff. right. left. reflexivity.
    + in_cases Hin.
Qed.

Lemma reply_abort c0 r c e :
  In (Call c (Raises e)) (reply_events c0 r) -> c = c0 /\ r = Raises e.
Proof.
  intros Hin. apply reply_events_owner in Hin as [Hin|[e' Hin]];
    [|discriminate].
  injection Hin as <- <-. auto.
Qed.

Ltac aborted Hin He pre :=
  destruct (reply_abort Hin) as [-> ->];
  unfold reply_result, reply_events; rewrite He;
  split; [reflexivity | exists pre; reflexivity].

Lemma block_abort b s c e :
  In (Call c (Raises e)) (evs (run_block env b s)) -> is_Exception e = false ->
  res (run_block env b s) = Raise e /\
  exists pre, evs (run_block env b s) = pre ++ [Call c (Raises e)].
Proof.
  intros Hin He. destruct b; cbn [run_block] in *.
  - rewrite stop_command_controller_eq in *.
    destruct (cmd_controller (self s)); [|destruct Hin].
    destruct (invoke env cmd_controller_stop (world s)) as [r w]. cbn [res evs] in *.
    aborted Hin He (@nil event).
  - rewrite close_websocket_eq in *.
    destruct (ws_controller (self s)); [|destruct Hin].
    destruct (invoke env ws_controller_close (world s)) as [r w]. cbn [res evs] in *.
    aborted Hin He (@nil event).
  - rewrite stop_visualization_eq in *.
    destruct (visualizer (self s)); [|destruct Hin].
    destruct (running env (world s)); [|destruct Hin as [Hin|[]]; discriminate].
    destruct (invoke env visualizer_stop (world s)) as [r w]. cbn [res evs] in *.
    destruct Hin as [Hin|Hin]; [discriminate|].
    aborted Hin He [Get_running true].
  - rewrite flush_and_close_database_eq in *.
    destruct (db_manager (self s)); [|destruct Hin].
    destruct (console_view (self s)); [|destruct Hin as [Hin|[]]; discriminate].
    destruct (invoke env db_manager_flush (world s)) as [[v|e0] w].
    + destruct (invoke env db_manager_close w) as [r w']. cbn [res evs] in *.
      destruct Hin as [Hin|[Hin|Hin]]; try discriminate.
      apply in_app_iff in Hin as [Hin|Hin].
      * aborted Hin He [flushing; Call db_manager_flush (Returns v)].
      * destruct r; in_cases Hin.
    + cbn [res evs] in *. destruct Hin as [Hin|Hin]; [discriminate|].
      aborted Hin He [flushing].
Qed.

Lemma complete_not_in_block b s : ~ In complete (evs (run_block env b s)).
Proof.
  intros H. apply block_owner in H as [H|[[m H]|H]]; discriminate.
Qed.

(** X11.  An exception that is not an [Exception] ([KeyboardInterrupt],
    [SystemExit]) raised by a teardown call is not caught by the step's
    [except Exception]: [cleanup] ends with it at once, the call is the last
    thing in its trace, and the closing message is not shown. *)
Theorem cleanup_aborted_by_non_Exception (s : state W) (c : call) (e : exn) :
  In (Call c (Raises e)) (evs (cleanup env s)) ->
  is_Exception e = false ->
  res (cleanup env s) = Raise e /\
  (exists pre, evs (cleanup env s) = pre ++ [Call c (Raises e)]) /\
  ~ In (print_info "Application shutdown complete." false) (evs (cleanup env s)).
Proof.
  intros Hin He.
  assert (Hcv : console_view (self s) <> None).
  { intros Hn. rewrite (cleanup_no_console_view _ Hn) in Hin. destruct Hin. }
  revert Hin. rewrite cleanup_trace by assumption. rewrite cleanup_eq.
  destruct (console_view (self s)); [clear Hcv|congruence]. cbv zeta.
  set (o1 := stop_command_controller env s).
  set (o2 := close_websocket env (post o1)).
  set (o3 := stop_visualization env (post o2)).
  set (o4 := flush_and_close_database env (post o3)).
  pose proof (@block_abort Cmd s c e) as A1.
  pose proof (@block_abort Ws (post o1) c e) as A2.
  pose proof (@block_abort Viz (post o2) c e) as A3.
  pose proof (@block_abort Db (post o3) c e) as A4.
  pose proof (@complete_not_in_block Cmd s) as C1.
  pose proof (@complete_not_in_block Ws (post o1)) as C2.
  pose proof (@complete_not_in_block Viz (post o2)) as C3.
  pose proof (@complete_not_in_block Db (post o3)) as C4.
  pose proof (@block_never_halts Cmd s) as N1.
  pose proof (@block_never_halts Ws (post o1)) as N2.
  pose proof (@block_never_halts Viz (post o2)) as N3.
  pose proof (@block_never_halts Db (post o3)) as N4.
  cbn [run_block] in *. fold o1 in A1, C1, N1. fold o2 in A2, C2, N2.
  fold o3 in A3, C3, N3. fold o4 in A4, C4, N4.
  assert (S : complete <> starting) by discriminate.
  destruct (res o1) as [[]|e1|h1]; [|clear A2 A3 A4|destruct (N1 h1); reflexivity];
    cbn [is_Ret andb when res evs].
  2:{ rewrite !app_nil_r. intros [Hin|Hin]; [discriminate|].
      destruct (A1 Hin He) as (R & pre & E). injection R as ->. rewrite E.
      split; [reflexivity|]. split; [exists (starting :: pre); reflexivity|].
      rewrite <- E. intros [H|H]; [destruct S; auto | apply (C1 H)]. }
  destruct (res o2) as [[]|e2|h2]; [|clear A3 A4|destruct (N2 h2); reflexivity];
    cbn [is_Ret andb when res evs].
  2:{ rewrite !app_nil_r. intros [Hin|Hin]; [discriminate|].
      apply in_app_iff in Hin as [Hin|Hin];
        [destruct (A1 Hin He) as (R & _); discriminate|].
      destruct (A2 Hin He) as (R & pre & E). injection R as ->. rewrite E.
      split; [reflexivity|].
      split; [exists (starting :: evs o1 ++ pre); cbn [List.app];
              rewrite <- app_assoc; reflexivity|].
      rewrite <- E. intros [H|H]; [destruct S; auto|].
      apply in_app_iff in H as [H|H]; [apply (C1 H) | apply (C2 H)]. }
  destruct (res o3) as [[]|e3|h3]; [|clear A4|destruct (N3 h3); reflexivity];
    cbn [is_Ret andb when res evs].
  2:{ rewrite !app_nil_r. intros [Hin|Hin]; [discriminate|].
      apply in_app_iff in Hin as [Hin|Hin];
        [destruct (A1 Hin He) as (R & _); discriminate|].
      apply in_app_iff in Hin as [Hin|Hin];
        [destruct (A2 Hin He) as (R & _); discriminate|].
      destruct (A3 Hin He) as (R & pre & E). injection R as ->. rewrite E.
      split; [reflexivity|].
      split; [exists (starting :: evs o1 ++ evs o2 ++ pre); cbn [List.app];
              rewrite <- !app_assoc; reflexivity|].
      rewrite <- E. intros [H|H]; [destruct S; auto|].
      apply in_app_iff in H as [H|H]; [apply (C1 H)|].
      apply in_app_iff in H as [H|H]; [apply (C2 H) | apply (C3 H)]. }
  destruct (res o4) as [[]|e4|h4]; [| |destruct (N4 h4); reflexivity];
    cbn [is_Ret andb when res evs].
  - intros [Hin|Hin]; [discriminate|].
    apply in_app_iff in Hin as [Hin|Hin];
      [destruct (A1 Hin He) as (R & _); discriminate|].
    apply in_app_iff in Hin as [Hin|Hin];
      [destruct (A2 Hin He) as (R & _); discriminate|].
    apply in_app_iff in Hin as [Hin|Hin];
      [destruct (A3 Hin He) as (R & _); discriminate|].
    apply in_app_iff in Hin as [Hin|Hin];
      [destruct (A4 Hin He) as (R & _); discriminate|].
    destruct Hin as [Hin|[]]. discriminate.
  - rewrite !app_nil_r. intros [Hin|Hin]; [discriminate|].
    apply in_app_iff in Hin as [Hin|Hin];
      [destruct (A1 Hin He) as (R & _); discriminate|].
    apply in_app_iff in Hin as [Hin|Hin];
      [destruct (A2 Hin He) as (R & _); discriminate|].
    apply in_app_iff in Hin as [Hin|Hin];
      [destruct (A3 Hin He) as (R & _); discriminate|].
    destruct (A4 Hin He) as (R & pre & E). injection R as ->. rewrite E.
    split; [reflexivity|].
    split; [exists (starting :: evs o1 ++ evs o2 ++ evs o3 ++ pre); cbn [List.app];
            rewrite <- !app_assoc; reflexivity|].
    rewrite <- E. intros [H|H]; [destruct S; auto|].
    apply in_app_iff in H as [H|H]; [apply (C1 H)|].
    apply in_app_iff in H as [H|H]; [apply (C2 H)|].
    apply in_app_iff in H as [H|H]; [apply (C3 H) | apply (C4 H)].
Qed.

Lemma reply_raise r e :
  reply_result r = Raise e -> r = Raises e /\ is_Exception e = false.
Proof.
  destruct r as [v|e0]; cbn; [discriminate|].
  destruct (is_Exception e0) eqn:X; [discriminate|].
  intros E. injection E as <-. auto.
Qed.

Ltac raised R pre :=
  apply reply_raise in R as [-> R]; split; [exact R|];
  unfold reply_events; rewrite R;
  eexists; exists pre; split; cycle 1; reflexivity.

Lemma block_raise b s e :
  res (run_block env b s) = Raise e ->
  is_Exception e = false /\
  exists c pre,
    is_teardown_call c = true /\
    evs (run_block env b s) = pre ++ [Call c (Raises e)].
Proof.
  destruct b; cbn [run_block].
  - rewrite stop_command_controller_eq.
    destruct (cmd_controller (self s)); [|discriminate].
    destruct (invoke env cmd_controller_stop (world s)) as [r w].
    cbn [res evs]. intros R. raised R (@nil event).
  - rewrite close_websocket_eq.
    destruct (ws_controller (self s)); [|discriminate].
    destruct (invoke env ws_controller_close (world s)) as [r w].
    cbn [res evs]. intros R. raised R (@nil event).
  - rewrite stop_visualization_eq.
    destruct (visualizer (self s)); [|discriminate].
    destruct (running env (world s)); [|discriminate].
    destruct (invoke env visualizer_stop (world s)) as [r w].
    cbn [res evs]. intros R. raised R [Get_running true].
  - rewrite flush_and_close_database_eq.
    destruct (db_manager (self s)); [|discriminate].
    destruct (console_view (self s)); [|discriminate].
    destruct (invoke env db_manager_flush (world s)) as [[v|e0] w].
    + destruct (invoke env db_manager_close w) as [r w'].
      cbn [res evs]. intros R.
      raised R [flushing; Call db_manager_flush (Returns v)].
    + cbn [res evs]. intros R. raised R [flushing].
Qed.

(** X12.  The source makes the five teardown calls inside [try] blocks
    that catch [Exception]; the read of [visualizer.running] (line 136) and
    the console view's first and last message (lines 119, 152) are outside
    every [try], and the model takes them not to raise.  Under that
    assumption, with the console view assigned, no [Exception] leaves
    [cleanup], and so no [AttributeError]: an exception that leaves it was
    raised by one of the five teardown calls, is not an [Exception], and that
    call is the last thing [cleanup] did. *)
Theorem cleanup_raises_only_from_teardown (s : state W) (e : exn) :
  console_view (self s) <> None ->
  res (cleanup env s) = Raise e ->
  is_Exception e = false /\
  exists c pre,
    is_teardown_call c = true /\
    evs (cleanup env s) = pre ++ [Call c (Raises e)].
Proof.
  intros Hcv. rewrite cleanup_eq.
  destruct (console_view (self s)); [clear Hcv|congruence]. cbv zeta.
  set (o1 := stop_command_controller env s).
  set (o2 := close_websocket env (post o1)).
  set (o3 := stop_visualization env (post o2)).
  set (o4 := flush_and_close_database env (post o3)).
  pose proof (@block_raise Cmd s) as B1.
  pose proof (@block_raise Ws (post o1)) as B2.
  pose proof (@block_raise Viz (post o2)) as B3.
  pose proof (@block_raise Db (post o3)) as B4.
  cbn [run_block] in *. fold o1 in B1. fold o2 in B2. fold o3 in B3. fold o4 in B4.
  destruct (res o1) as [[]|e1|h1]; cbn [res evs]; try discriminate.
  2:{ intros E. injection E as ->.
      destruct (B1 _ eq_refl) as (He & c & pre & Hc & Ev). split; [exact He|].
      exists c, (starting :: pre). split; [exact Hc|]. rewrite Ev. reflexivity. }
  destruct (res o2) as [[]|e2|h2]; cbn [res evs]; try discriminate.
  2:{ intros E. injection E as ->.
      destruct (B2 _ eq_refl) as (He & c & pre & Hc & Ev). split; [exact He|].
      exists c, (starting :: evs o1 ++ pre). split; [exact Hc|]. rewrite Ev.
      cbn [List.app]. rewrite <- !app_assoc. reflexivity. }
  destruct (res o3) as [[]|e3|h3]; cbn [res evs]; try discriminate.
  2:{ intros E. injection E as ->.
      destruct (B3 _ eq_refl) as (He & c & pre & Hc & Ev). split; [exact He|].
      exists c, (starting :: evs o1 ++ evs o2 ++ pre). split; [exact Hc|].
      rewrite Ev. cbn [List.app]. rewrite <- !app_assoc. reflexivity. }
  destruct (res o4) as [[]|e4|h4]; cbn [res evs]; try discriminate.
  intros E. injection E as ->.
  destruct (B4 _ eq_refl) as (He & c & pre & Hc & Ev). split; [exact He|].
  exists c, (starting :: evs o1 ++ evs o2 ++ evs o3 ++ pre). split; [exact Hc|].
  rewrite Ev. cbn [List.app]. rewrite <- !app_assoc. reflexivity.
Qed.

(** ** The signal handler in the loop *)

(** X13.  When a handled signal arrives during a sleep of the loop and the
    handler's [cleanup] returns, the [SystemExit] of [sys.exit(0)] is not a
    [KeyboardInterrupt] and passes through the [finally] clause, which runs
    [cleanup] a second time from the state the first left; [start] ends in
    [SystemExit(0)] unless that second [cleanup] ends in an exception. *)
Theorem loop_signal_runs_cleanup_twice
    (n : nat) (sig : signum) (rest : list tick) (s : state W) :
  handler_of sig s = signal_handler_closure ->
  res (cleanup env s) = Ret tt ->
  evs (keep_main_thread_alive env (repeat Quiet n ++ Deliver sig :: rest) s) =
  repeat (time_sleep Quiet) n ++
  time_sleep (Deliver sig) ::
  print (newline ++ "Received interrupt signal. Shutting down...") ::
  evs (cleanup env s) ++ evs (cleanup env (post (cleanup env s))) /\
  res (keep_main_thread_alive env (repeat Quiet n ++ Deliver sig :: rest) s) =
  match res (cleanup env (post (cleanup env s))) with
  | Ret _ => Raise (SystemExit 0)
  | r => r
  end.
Proof.
  intros Hh Hr.
  unfold keep_main_thread_alive, try_finally, try_except_KeyboardInterrupt.
  rewrite keep_alive_first by discriminate.
  rewrite sleep_Deliver by assumption. rewrite Hr.
  cbn [res post evs is_KeyboardInterrupt].
  destruct (cleanup env (post (cleanup env s))) as [[[]|e'|h'] s1 t1];
    cbn [res evs]; rewrite <- !app_assoc; split; reflexivity.
Qed.

(** ** The program as a script *)

Lemma main_eq schedule (s : state W) :
  main env schedule s =
  match res (__init__ env None (new_instance s)) with
  | Ret _ =>
      Out (res (start env schedule (post (__init__ env None (new_instance s)))))
          (post (start env schedule (post (__init__ env None (new_instance s)))))
          (evs (__init__ env None (new_instance s)) ++
           evs (start env schedule (post (__init__ env None (new_instance s)))))
  | Raise e => Out (Raise e) (post (__init__ env None (new_instance s)))
                   (evs (__init__ env None (new_instance s)))
  | Halt h => Out (Halt h) (post (__init__ env None (new_instance s)))
                  (evs (__init__ env None (new_instance s)))
  end.
Proof.
  unfold main. rewrite bind_eq.
  change (update_self (fun _ => blank) s) with (Out (Ret tt) (new_instance s) []).
  cbn [res post evs List.app]. rewrite bind_eq.
  destruct (res (__init__ env None (new_instance s))); reflexivity.
Qed.

Lemma init_raise_hooks args0 (s : state W) e :
  res (__init__ env args0 s) = Raise e ->
  exit_hooks (post (__init__ env args0 s)) = exit_hooks s.
Proof.
  destruct (__init__ env args0 s) as [r s' t] eqn:H. cbn [res post].
  intros ->. destruct s as [obj w si st h]. cbn [exit_hooks].
  destruct args0 as [a|]; norm H.
  - repeat (next_call H; [|injection H as <- <-; reflexivity]). discriminate.
  - next_call H; [|injection H as <- <-; reflexivity].
    destruct v; cbv beta iota in H; try (injection H as <- <-; reflexivity).
    repeat (next_call H; [|injection H as <- <-; reflexivity]). discriminate.
Qed.

Ltac construction_call Hin :=
  members Hin; injection Hin as <- <-; split; reflexivity.

Lemma init_calls args0 (s : state W) c r :
  In (Call c r) (evs (__init__ env args0 s)) ->
  is_teardown_call c = false /\ is_startup_call c = false.
Proof.
  destruct (__init__ env args0 s) as [r0 s' t] eqn:H. cbn [evs].
  intros Hin. destruct s as [obj w si st h].
  destruct args0 as [a|]; norm H.
  - repeat (next_call H; [|injection H as <- <- <-; construction_call Hin]).
    injection H as <- <- <-; construction_call Hin.
  - next_call H; [|injection H as <- <- <-; construction_call Hin].
    destruct v; cbv beta iota in H;
      try (injection H as <- <- <-; construction_call Hin).
    repeat (next_call H; [|injection H as <- <- <-; construction_call Hin]).
    injection H as <- <- <-; construction_call Hin.
Qed.

(** X14.  Run as a script in an interpreter with no exit hook registered,
    when the construction of the application fails the process ends with
    that exception: [start] is not reached, nothing was registered with
    [atexit], and the process makes no startup call and no teardown call;
    what was constructed before the failure is not shut down. *)
Theorem failed_construction_ends_process
    (schedule : list tick) (s : state W) (e : exn) :
  exit_hooks s = [] ->
  res (__init__ env None (new_instance s)) = Raise e ->
  trace (run env schedule s) = evs (__init__ env None (new_instance s)) /\
  status (run env schedule s) =
    match e with SystemExit code => Exit code | _ => Uncaught e end /\
  forall c r, In (Call c r) (trace (run env schedule s)) ->
              is_teardown_call c = false /\ is_startup_call c = false.
Proof.
  intros Hh Hr.
  pose proof (init_raise_hooks _ _ Hr) as Hk.
  pose proof (@init_calls None (new_instance s)) as Hc.
  unfold run. rewrite main_eq, Hr.
  destruct (__init__ env None (new_instance s)) as [r0 s0 t0].
  cbn [res post evs exit_hooks new_instance] in *. rewrite Hk, Hh.
  cbn [rev run_exit_hooks ret trace status]. rewrite app_nil_r.
  split; [reflexivity|]. split; [reflexivity|]. exact Hc.
Qed.

(** X15.  Run as a script in an interpreter with no exit hook registered,
    once the application is constructed [cleanup] is the one exit hook: when
    the main module returns or raises, the interpreter runs a whole [cleanup]
    again on the way out, whatever [start] has already shut down.  The exit
    status is that of the main module: the code of a [SystemExit], 0 when it
    returned. *)
Theorem exit_runs_cleanup_again (schedule : list tick) (s : state W) :
  exit_hooks s = [] ->
  res (__init__ env None (new_instance s)) = Ret tt ->
  (forall h, res (main env schedule s) <> Halt h) ->
  exit_hooks (post (main env schedule s)) = [cleanup_hook] /\
  trace (run env schedule s) =
    evs (main env schedule s) ++ evs (cleanup env (post (main env schedule s))) /\
  status (run env schedule s) =
    match res (main env schedule s) with
    | Raise (SystemExit code) => Exit code
    | Raise e => Uncaught e
    | _ => Exit 0
    end.
Proof.
  intros Hh Hi Hn.
  assert (Hk : exit_hooks (post (main env schedule s)) = [cleanup_hook]).
  { rewrite main_eq, Hi. cbn [post].
    destruct (start_untouched schedule (post (__init__ env None (new_instance s))))
      as (_ & _ & _ & ->).
    destruct (init_post None (new_instance s) Hi) as (_ & _ & _ & ->).
    cbn [new_instance exit_hooks]. rewrite Hh. reflexivity. }
  split; [assumption|].
  unfold run. destruct (main env schedule s) as [rm sm tm].
  cbn [res post evs] in *. rewrite Hk.
  cbn [rev List.app run_exit_hooks run_hook]. unfold bind, ret.
  pose proof (cleanup_never_halts sm) as N.
  destruct (cleanup env sm) as [[a|e|h] s1 t1]; cbn [res evs] in *;
    try (destruct (N h); reflexivity);
    rewrite ?app_nil_r;
    (destruct rm as [a'|e'|h']; [| |destruct (Hn h'); reflexivity]);
    cbn [trace status]; split; reflexivity.
Qed.

(** X16.  Neither [start] nor [cleanup] assigns an attribute of the
    application, installs a signal handler or registers an exit hook: when
    they are done the object, the signal table and the hooks are as they
    were.  In particular [cleanup] leaves every component assigned, so the
    guards of a later [cleanup] hold as they did. *)
Theorem start_and_cleanup_assign_nothing (schedule : list tick) (s : state W) :
  untouched s (post (start env schedule s)) /\
  untouched s (post (cleanup env s)) /\
  (forall b, guard b (self (post (cleanup env s))) = guard b (self s)).
Proof.
  split; [apply start_untouched|].
  pose proof (cleanup_untouched s) as U.
  split; [assumption|]. intros b. destruct U as (-> & _). reflexivity.
Qed.

(** ** What [start] shows *)

Lemma init_configuration args0 (a : Args.t) (s : state W) :
  keeps_symbols env ->
  res (__init__ env args0 s) = Ret tt ->
  args (self (post (__init__ env args0 s))) = Some a ->
  console_view (self (post (__init__ env args0 s))) <> None /\
  db_name (self (post (__init__ env args0 s))) = Some (Args.db_name a) /\
  symbols (self (post (__init__ env args0 s))) = Some SymbolsList /\
  symbols_list (world (post (__init__ env args0 s))) = map upper (Args.symbols a).
Proof.
  intros Hk.
  destruct (__init__ env args0 s) as [r s' t] eqn:H. cbn [res post].
  intros -> Ha.
  destruct args0 as [a0|]; norm H.
  - repeat (next_call_keeping Hk H; try discriminate).
    injection H as <- _.
    cbn [self world args symbols db_name console_view] in Ha |- *.
    injection Ha as ->. chain. repeat split; discriminate.
  - next_call_keeping Hk H; try discriminate.
    destruct v; cbv beta iota in H; try discriminate.
    repeat (next_call_keeping Hk H; try discriminate).
    injection H as <- _.
    cbn [self world args symbols db_name console_view] in Ha |- *.
    injection Ha as ->. chain. repeat split; discriminate.
Qed.

Lemma startup_banner (s : state W) n :
  console_view (self s) <> None ->
  db_name (self s) = Some n ->
  symbols (self s) = Some SymbolsList ->
  exists rest,
    evs (startup env s) =
    print_info ("Starting Cryptocurrency Market Monitor with database: " ++ n) true
    :: print_info ("Tracking symbols: " ++ join ", " (symbols_list (world s))) true
    :: rest.
Proof.
  destruct (startup env s) as [r s' t] eqn:H. cbn [evs].
  startup_cases s H; cbn [self world console_view db_name symbols];
    intros Hcv Hn Hs; try congruence;
    injection Hn as ->; cbn [List.app]; eexists; reflexivity.
Qed.

(** X17.  The first two lines [start] shows after a successful construction
    name the database of the arguments and list the configured symbols in
    upper case, separated by a comma and a space.  The collaborators are
    taken not to change the list they were handed. *)
Theorem start_banner_shows_configuration
    (args0 : option Args.t) (a : Args.t) (schedule : list tick) (s : state W) :
  keeps_symbols env ->
  res (__init__ env args0 s) = Ret tt ->
  args (self (post (__init__ env args0 s))) = Some a ->
  exists rest,
    evs (start env schedule (post (__init__ env args0 s))) =
    print_info ("Starting Cryptocurrency Market Monitor with database: "
                ++ Args.db_name a) true
    :: print_info ("Tracking symbols: "
                   ++ join ", " (map upper (Args.symbols a))) true
    :: rest.
Proof.
  intros Hk Hr Ha.
  destruct (init_configuration _ _ Hk Hr Ha) as (Hcv & Hn & Hs & Hl).
  destruct (startup_banner _ Hcv Hn Hs) as [rest E].
  unfold start. rewrite evs_bind, E, Hl. cbn [List.app].
  eexists. reflexivity.
Qed.

Lemma startup_visualization_refused (s : state W) v :
  In (Call visualizer_start (Returns v)) (evs (startup env s)) ->
  truthy v = false ->
  res (startup env s) = Ret tt /\
  exists pre,
    evs (startup env s) =
    pre ++ [Call visualizer_start (Returns v);
            print_error "Failed to start visualization. Make sure you have required packages installed.";
            print_info help_line true].
Proof.
  destruct (startup env s) as [r s' t] eqn:H. cbn [res evs].
  startup_cases s H; intros Hin Hv; members Hin;
    injection Hin as <-; try congruence;
    (split; [reflexivity|]); cbn [List.app]; eexists [_; _; _; _; _]; reflexivity.
Qed.

(** X18.  A visualization that does not start is not fatal: when
    [visualizer.start()] returns a false value, [start] shows the error
    message, then the help line, and enters the keep-alive loop. *)
Theorem failed_visualization_is_not_fatal
    (schedule : list tick) (s : state W) (v : value) :
  In (Call visualizer_start (Returns v)) (evs (startup env s)) ->
  truthy v = false ->
  exists pre,
    evs (start env schedule s) =
    pre ++ [Call visualizer_start (Returns v);
            print_error "Failed to start visualization. Make sure you have required packages installed.";
            print_info help_line true]
        ++ evs (keep_main_thread_alive env schedule (post (startup env s))).
Proof.
  intros Hin Hv.
  destruct (startup_visualization_refused s v Hin Hv) as (R & pre & E).
  unfold start. rewrite evs_bind, R, E. exists pre.
  rewrite <- app_assoc. reflexivity.
Qed.

(** ** A signal during the keep-alive loop *)

Lemma signal_handler_eq sig (s : state W) :
  signal_handler env sig s =
  Out match res (cleanup env s) with
      | Ret _ => Raise (SystemExit 0)
      | Raise e => Raise e
      | Halt h => Halt h
      end
      (post (cleanup env s))
      (received :: evs (cleanup env s)).
Proof.
  unfold signal_handler, bind, emit, raise.
  destruct (cleanup env s) as [[a|e|h] s1 t1];
    cbn [res post evs List.app]; rewrite ?app_nil_r; reflexivity.
Qed.

Lemma schedule_split (schedule : list tick) :
  (exists n, schedule = repeat Quiet n) \/
  (exists n t rest, t <> Quiet /\ schedule = repeat Quiet n ++ t :: rest).
Proof.
  induction schedule as [|t l IH].
  - left. exists 0. reflexivity.
  - destruct t as [|sig|e].
    + destruct IH as [[n ->]|(n & t & rest & Ht & ->)].
      * left. exists (S n). reflexivity.
      * right. exists (S n), t, rest. split; [assumption | reflexivity].
    + right. exists 0, (Deliver sig), l. split; [discriminate | reflexivity].
    + right. exists 0, (Throw e), l. split; [discriminate | reflexivity].
Qed.

(** With the handler installed, the sleep during which a signal is delivered
    is the only sleep in its trace. *)
Lemma sleep_events t t' (s : state W) :
  sigint s = signal_handler_closure -> sigterm s = signal_handler_closure ->
  In (time_sleep t') (evs (sleep env t s)) -> t' = t.
Proof.
  intros Hi Ht. destruct t as [|sig|e].
  - change (sleep env Quiet s) with (Out (W:=W) (Ret tt) s [time_sleep Quiet]).
    intros [H|[]]. congruence.
  - rewrite sleep_Deliver by (destruct sig; assumption). cbn [evs].
    intros [H|[H|H]]; [congruence | discriminate |].
    destruct (not_sleep_in_cleanup _ _ H).
  - change (sleep env (Throw e) s)
      with (Out (W:=W) (A:=unit) (Raise e) s [time_sleep (Throw e)]).
    intros [H|[]]. congruence.
Qed.

(** The guarded loop when a handled signal arrives and the handler's
    [cleanup] returns. *)
Lemma keep_main_thread_alive_Deliver n sig rest (s : state W) :
  handler_of sig s = signal_handler_closure ->
  res (cleanup env s) = Ret tt ->
  evs (keep_main_thread_alive env (repeat Quiet n ++ Deliver sig :: rest) s) =
  repeat (time_sleep Quiet) n ++
  time_sleep (Deliver sig) :: received ::
  evs (cleanup env s) ++ evs (cleanup env (post (cleanup env s))) /\
  res (keep_main_thread_alive env (repeat Quiet n ++ Deliver sig :: rest) s) =
  match res (cleanup env (post (cleanup env s))) with
  | Ret _ => Raise (SystemExit 0)
  | r => r
  end.
Proof.
  intros Hh Hr.
  unfold keep_main_thread_alive, try_finally, try_except_KeyboardInterrupt.
  rewrite keep_alive_first by discriminate.
  rewrite sleep_Deliver by assumption. rewrite Hr.
  cbn [res post evs is_KeyboardInterrupt].
  destruct (cleanup env (post (cleanup env s))) as [[[]|e'|h'] s1 t1];
    cbn [res evs]; rewrite <- !app_assoc; split; reflexivity.
Qed.

Lemma errors_only_repeat_sleep n t :
  errors_only (repeat (time_sleep Quiet) n ++ t) = errors_only t.
Proof. induction n as [|n IH]; [reflexivity | exact IH]. Qed.

(** The guarded loop in which a signal was delivered. *)
Lemma loop_interrupted sig schedule (s : state W) :
  sigint s = signal_handler_closure -> sigterm s = signal_handler_closure ->
  console_view (self s) <> None ->
  errors_only (evs (keep_main_thread_alive env schedule s)) = true ->
  In (time_sleep (Deliver sig)) (evs (keep_main_thread_alive env schedule s)) ->
  res (cleanup env s) = Ret tt /\
  In complete (evs (cleanup env s)) /\
  res (keep_main_thread_alive env schedule s) = Raise (SystemExit 0) /\
  exists n rest,
    schedule = repeat Quiet n ++ Deliver sig :: rest /\
    evs (keep_main_thread_alive env schedule s) =
    repeat (time_sleep Quiet) n ++
    time_sleep (Deliver sig) :: received ::
    evs (cleanup env s) ++ evs (cleanup env (post (cleanup env s))).
Proof.
  intros Hi Ht Hcv He Hin.
  destruct (schedule_split schedule) as [[n ->]|(n & t & rest & Hq & ->)].
  - exfalso. revert Hin.
    unfold keep_main_thread_alive, try_finally, try_except_KeyboardInterrupt.
    rewrite keep_alive_quiet. cbn [evs]. intros Hin.
    apply repeat_spec in Hin. discriminate.
  - assert (t = Deliver sig) as ->.
    { destruct (keep_main_thread_alive_prefix (repeat Quiet n ++ t :: rest) s)
        as (y & Ey & Ny).
      rewrite Ey, keep_alive_first in Hin by assumption. cbn [evs] in Hin.
      rewrite !in_app_iff in Hin. destruct Hin as [[Hin|Hin]|Hin].
      - apply repeat_spec in Hin. discriminate.
      - symmetry. exact (@sleep_events _ _ _ Hi Ht Hin).
      - destruct (Ny _ Hin). }
    assert (Hh : handler_of sig s = signal_handler_closure)
      by (destruct sig; assumption).
    assert (Hc : errors_only (evs (cleanup env s)) = true).
    { destruct (keep_main_thread_alive_prefix
                  (repeat Quiet n ++ Deliver sig :: rest) s) as (y & Ey & _).
      rewrite Ey, keep_alive_first, errors_only_app in He by discriminate.
      apply andb_prop in He as [He _]. cbn [evs] in He.
      rewrite errors_only_repeat_sleep, sleep_Deliver in He by assumption.
      exact He. }
    destruct (cleanup_completes _ Hcv Hc) as (Rc & _ & Lc).
    destruct (@keep_main_thread_alive_Deliver n sig rest s Hh Rc) as [Ek Rk].
    assert (Hc' : errors_only (evs (cleanup env (post (cleanup env s)))) = true).
    { rewrite Ek, errors_only_repeat_sleep in He.
      change (errors_only (time_sleep (Deliver sig) :: received :: ?t))
        with (errors_only t) in He.
      rewrite errors_only_app in He. apply andb_prop in He as [_ He]. exact He. }
    assert (Hcv' : console_view (self (post (cleanup env s))) <> None)
      by (destruct (cleanup_untouched s) as (-> & _); assumption).
    destruct (cleanup_completes _ Hcv' Hc') as (Rc' & _).
    rewrite Rc' in Rk.
    split; [exact Rc|]. split; [exact Lc|]. split; [exact Rk|].
    exists n, rest. split; [reflexivity | exact Ek].
Qed.

(** The main module in which a signal was delivered. *)
Lemma main_interrupted sig schedule (s : state W) :
  errors_only (evs (main env schedule s)) = true ->
  In (time_sleep (Deliver sig)) (evs (main env schedule s)) ->
  handler_of sig (in_loop env s) = signal_handler_closure /\
  res (cleanup env (in_loop env s)) = Ret tt /\
  In complete (evs (cleanup env (in_loop env s))) /\
  res (main env schedule s) = Raise (SystemExit 0) /\
  exists n rest,
    schedule = repeat Quiet n ++ Deliver sig :: rest /\
    evs (main env schedule s) =
    evs (__init__ env None (new_instance s)) ++
    evs (startup env (post (__init__ env None (new_instance s)))) ++
    repeat (time_sleep Quiet) n ++
    time_sleep (Deliver sig) :: received ::
    evs (cleanup env (in_loop env s)) ++
    evs (cleanup env (post (cleanup env (in_loop env s)))).
Proof.
  rewrite main_eq. unfold in_loop.
  set (s0 := new_instance s).
  pose proof (init_post None s0) as I.
  destruct (res (__init__ env None s0)) as [[]|e|h] eqn:Ri; cbn [res evs];
    intros He Hin; try (destruct (not_sleep_in_init _ _ _ Hin)).
  destruct (I eq_refl) as (_ & Hi & Ht & _).
  set (sI := post (__init__ env None s0)) in *.
  rewrite errors_only_app in He. apply andb_prop in He as [_ He].
  rewrite in_app_iff in Hin.
  destruct Hin as [Hin|Hin]; [destruct (not_sleep_in_init _ _ _ Hin)|].
  revert He Hin. unfold start. rewrite bind_eq.
  pose proof (startup_untouched sI) as (Us & Ui & Ut & _).
  pose proof (startup_reads_console_view sI) as Hcv.
  destruct (res (startup env sI)) as [[]|e|h] eqn:Rs; cbn [res evs];
    intros He Hin; try (destruct (not_sleep_in_startup _ _ Hin)).
  set (sL := post (startup env sI)) in *.
  rewrite errors_only_app in He. apply andb_prop in He as [_ He].
  rewrite in_app_iff in Hin.
  destruct Hin as [Hin|Hin]; [destruct (not_sleep_in_startup _ _ Hin)|].
  assert (Hi' : sigint sL = signal_handler_closure) by congruence.
  assert (Ht' : sigterm sL = signal_handler_closure) by congruence.
  assert (Hcv' : console_view (self sL) <> None)
    by (rewrite Us; apply Hcv; reflexivity).
  destruct (@loop_interrupted sig schedule sL Hi' Ht' Hcv' He Hin)
    as (Rc & Lc & Rk & n & rest & Es & Ek).
  split; [destruct sig; assumption|]. split; [exact Rc|]. split; [exact Lc|].
  split; [exact Rk|].
  exists n, rest. split; [exact Es|]. rewrite Ek. reflexivity.
Qed.

(** What the interpreter adds once the main module is done. *)
Lemma run_split schedule (s : state W) :
  exists tail,
    trace (run env schedule s) = evs (main env schedule s) ++ tail /\
    (forall t, ~ In (time_sleep t) tail) /\
    (res (main env schedule s) = Raise (SystemExit 0) ->
     status (run env schedule s) = Exit 0).
Proof.
  unfold run.
  destruct (main env schedule s) as [rm sm tm]. cbn [res evs].
  pose proof (run_exit_hooks_never_halts (rev (exit_hooks sm)) sm) as Nh.
  pose proof (not_sleep_in_exit_hooks (rev (exit_hooks sm)) sm) as Ns.
  destruct rm as [a|e|h].
  - destruct (run_exit_hooks env (rev (exit_hooks sm)) sm) as [[a'|e'|h'] sh th];
      cbn [res evs] in Nh, Ns; try (destruct (Nh h'); reflexivity);
      cbn [trace status]; exists th; (split; [reflexivity|]);
      (split; [exact Ns | discriminate]).
  - destruct (run_exit_hooks env (rev (exit_hooks sm)) sm) as [[a'|e'|h'] sh th];
      cbn [res evs] in Nh, Ns; try (destruct (Nh h'); reflexivity);
      cbn [trace status]; exists th; (split; [reflexivity|]);
      (split; [exact Ns | intros E; injection E as ->; reflexivity]).
  - cbn [trace status]. exists []. rewrite app_nil_r.
    split; [reflexivity|]. split; [intros t []| discriminate].
Qed.

(** C4.  [__init__] installs the same handler, [signal_handler], for SIGINT
    and for SIGTERM.  When the program runs as a script and either signal is
    delivered while the main thread sleeps in the keep-alive loop, the
    handler is the one installed; it shows its message, runs a whole
    [cleanup] from the state the loop is in, from its first line to its last,
    and ends in [SystemExit(0)].  In the main module the sleeps before the
    signal were quiet, the handler's [cleanup] comes right after its message,
    followed by the [cleanup] of the [finally] clause as the [SystemExit]
    passes through it; the interpreter then runs its exit hooks and the
    process ends with exit status 0.  The collaborators are taken to raise
    nothing but [Exception]s in that run. *)
Theorem signal_runs_cleanup_and_exits
    (schedule : list tick) (s : state W) (sig : signum) :
  errors_only (trace (run env schedule s)) = true ->
  In (time_sleep (Deliver sig)) (trace (run env schedule s)) ->
  (forall args0 s0,
     res (__init__ env args0 s0) = Ret tt ->
     handler_of SIGINT (post (__init__ env args0 s0)) = signal_handler_closure /\
     handler_of SIGTERM (post (__init__ env args0 s0)) = signal_handler_closure) /\
  handler_of sig (in_loop env s) = signal_handler_closure /\
  evs (signal_handler env sig (in_loop env s)) =
    received :: evs (cleanup env (in_loop env s)) /\
  res (signal_handler env sig (in_loop env s)) = Raise (SystemExit 0) /\
  res (cleanup env (in_loop env s)) = Ret tt /\
  In complete (evs (cleanup env (in_loop env s))) /\
  (exists n rest,
     schedule = repeat Quiet n ++ Deliver sig :: rest /\
     evs (main env schedule s) =
     evs (__init__ env None (new_instance s)) ++
     evs (startup env (post (__init__ env None (new_instance s)))) ++
     repeat (time_sleep Quiet) n ++
     time_sleep (Deliver sig) ::
     evs (signal_handler env sig (in_loop env s)) ++
     evs (cleanup env (post (cleanup env (in_loop env s))))) /\
  (exists tail,
     trace (run env schedule s) = evs (main env schedule s) ++ tail) /\
  status (run env schedule s) = Exit 0.
Proof.
  intros He Hin. split.
  { intros args0 s0 R. destruct (init_post args0 s0 R) as (_ & Hi & Ht & _).
    split; assumption. }
  destruct (run_split schedule s) as (tail & Et & Nt & St).
  rewrite Et in He, Hin.
  rewrite errors_only_app in He. apply andb_prop in He as [He _].
  rewrite in_app_iff in Hin.
  destruct Hin as [Hin|Hin]; [|destruct (Nt _ Hin)].
  destruct (@main_interrupted sig schedule s He Hin)
    as (Hh & Rc & Lc & Rm & n & rest & Es & Em).
  rewrite signal_handler_eq, Rc. cbn [res evs List.app].
  repeat (split; [assumption || reflexivity|]).
  split; [|split].
  - exists n, rest. split; [exact Es|]. rewrite Em. reflexivity.
  - exists tail. exact Et.
  - exact (St Rm).
Qed.

End Proofs.

(** * The properties at work on the concrete environment *)

(** C2 on a constructed application with the visualizer running: the five
    teardown calls are made, in order. *)
Lemma cleanup_teardown_order_witness :
  constructed (self Demo.visualizing) = true /\
  errors_only (evs (cleanup Demo.env Demo.visualizing)) = true /\
  calls (evs (cleanup Demo.env Demo.visualizing)) = teardown_order.
Proof.
  assert (C : constructed (self Demo.visualizing) = true)
    by (vm_compute; reflexivity).
  assert (E : errors_only (evs (cleanup Demo.env Demo.visualizing)) = true)
    by (vm_compute; reflexivity).
  split; [exact C|]. split; [exact E|].
  rewrite (proj2 (proj2 (@cleanup_teardown_order bool Demo.env Demo.visualizing))
             C E).
  vm_compute. reflexivity.
Defined.

Example upper_symbol : upper "btcUsdt" = "BTCUSDT".
Proof. vm_compute. reflexivity. Qed.

(** C1, the claim as stated: when SIGINT arrives during the keep-alive loop
    the teardown runs three times in the one process (from the signal
    handler, from the [finally] block of [start] as [SystemExit] passes
    through it, and from the atexit hook), and a second invocation of
    [cleanup] repeats the calls of the first. *)
Lemma teardown_runs_three_times_on_SIGINT :
  times cmd_controller_stop (trace Demo.interrupted) = 3 /\
  times db_manager_flush (trace Demo.interrupted) = 3 /\
  times db_manager_close (trace Demo.interrupted) = 3 /\
  calls (evs (cleanup Demo.env (post (cleanup Demo.env Demo.ready)))) =
  calls (evs (cleanup Demo.env Demo.ready)) /\
  calls (evs (cleanup Demo.env Demo.ready)) <> [] /\
  ~ teardown_at_most_once (trace Demo.interrupted).
Proof.
  split; [vm_compute; reflexivity|].
  split; [vm_compute; reflexivity|].
  split; [vm_compute; reflexivity|].
  split; [vm_compute; reflexivity|].
  split; [vm_compute; discriminate|].
  intros H. specialize (H cmd_controller_stop (or_introl eq_refl)).
  vm_compute in H. lia.
Qed.

Lemma cleanup_runs_at_every_invocation_witness :
  constructed (self Demo.ready) = true /\
  errors_only (evs (cleanup_n_times Demo.env 3 Demo.ready)) = true /\
  times cmd_controller_stop (evs (cleanup_n_times Demo.env 3 Demo.ready)) = 3 /\
  times ws_controller_close (evs (cleanup_n_times Demo.env 3 Demo.ready)) = 3 /\
  times db_manager_flush (evs (cleanup_n_times Demo.env 3 Demo.ready)) = 3.
Proof.
  split; [vm_compute; reflexivity|]. split; [vm_compute; reflexivity|].
  apply (@cleanup_runs_at_every_invocation bool Demo.env 3 Demo.ready);
    vm_compute; reflexivity.
Defined.

Lemma teardown_failure_does_not_abort_witness :
  errors_only (evs (cleanup Demo.env_flush_fails Demo.visualizing)) = true /\
  In (Call db_manager_flush (Raises (Exception "database is locked")))
     (evs (cleanup Demo.env_flush_fails Demo.visualizing)) /\
  In (print "Error closing database: database is locked")
     (evs (cleanup Demo.env_flush_fails Demo.visualizing)) /\
  res (cleanup Demo.env_flush_fails Demo.visualizing) = Ret tt.
Proof.
  assert (E : errors_only (evs (cleanup Demo.env_flush_fails Demo.visualizing)) = true)
    by (vm_compute; reflexivity).
  assert (I : In (Call db_manager_flush (Raises (Exception "database is locked")))
                 (evs (cleanup Demo.env_flush_fails Demo.visualizing)))
    by (vm_compute; tauto).
  split; [exact E|]. split; [exact I|].
  destruct (@teardown_failure_does_not_abort bool Demo.env_flush_fails
              Demo.visualizing _ _ E I) as (H1 & _ & _ & H4).
  split; [exact H1 | exact H4].
Defined.

Lemma signal_runs_cleanup_and_exits_witness :
  errors_only (trace (run Demo.env [Quiet; Deliver SIGINT] Demo.boot)) = true /\
  In (time_sleep (Deliver SIGINT))
     (trace (run Demo.env [Quiet; Deliver SIGINT] Demo.boot)) /\
  evs (signal_handler Demo.env SIGINT (in_loop Demo.env Demo.boot)) =
    received :: evs (cleanup Demo.env (in_loop Demo.env Demo.boot)) /\
  res (signal_handler Demo.env SIGINT (in_loop Demo.env Demo.boot)) =
    Raise (SystemExit 0) /\
  status (run Demo.env [Quiet; Deliver SIGINT] Demo.boot) = Exit 0.
Proof.
  assert (E : errors_only (trace (run Demo.env [Quiet; Deliver SIGINT] Demo.boot))
              = true) by (vm_compute; reflexivity).
  assert (I : In (time_sleep (Deliver SIGINT))
                 (trace (run Demo.env [Quiet; Deliver SIGINT] Demo.boot)))
    by (vm_compute; tauto).
  split; [exact E|]. split; [exact I|].
  destruct (@signal_runs_cleanup_and_exits bool Demo.env
              [Quiet; Deliver SIGINT] Demo.boot SIGINT E I)
    as (_ & _ & H1 & H2 & _ & _ & _ & _ & H3).
  split; [exact H1|]. split; [exact H2 | exact H3].
Defined.

(** C5, the claim as stated: the connection attempt raises, [start] is left
    by that exception, and nothing of [cleanup] has run. *)
Lemma start_left_without_cleanup :
  res Demo.refused = Raise (Exception "connection refused") /\
  calls (evs Demo.refused) = [cmd_controller_start_listener; ws_controller_connect] /\
  ~ In (print_info "Cleaning up application resources..." false) (evs Demo.refused).
Proof.
  split; [vm_compute; reflexivity|]. split; [vm_compute; reflexivity|].
  vm_compute. intros H. decompose [or] H; discriminate || contradiction.
Qed.

Lemma start_leaves_through_cleanup_witness :
  (res (start Demo.env [Throw KeyboardInterrupt] Demo.ready) = Ret tt \/
   ((exists t, In (time_sleep t)
                  (evs (start Demo.env [Throw KeyboardInterrupt] Demo.ready))) /\
    forall h, res (start Demo.env [Throw KeyboardInterrupt] Demo.ready) <> Halt h)) /\
  exists pre s1,
    evs (start Demo.env [Throw KeyboardInterrupt] Demo.ready) =
    pre ++ evs (cleanup Demo.env s1) /\
    In (print_info "Cleaning up application resources..." false)
       (evs (cleanup Demo.env s1)).
Proof.
  assert (H : res (start Demo.env [Throw KeyboardInterrupt] Demo.ready) = Ret tt)
    by (vm_compute; reflexivity).
  split; [left; exact H|].
  exact (@start_leaves_through_cleanup bool Demo.env [Throw KeyboardInterrupt]
           Demo.ready (or_introl H)).
Defined.

Lemma symbols_fixed_at_startup_witness :
  keeps_symbols Demo.env /\
  res (__init__ Demo.env None Demo.boot) = Ret tt /\
  args (self (post (__init__ Demo.env None Demo.boot))) = Some Demo.args /\
  symbols_list (world (post (__init__ Demo.env None Demo.boot))) =
  map upper (Args.symbols Demo.args) /\
  called (TradeModel (map upper (Args.symbols Demo.args)))
         (evs (__init__ Demo.env None Demo.boot)).
Proof.
  assert (K : keeps_symbols Demo.env).
  { intros c [e l]. unfold Demo.env, Demo.collab, Demo.replies. cbn [invoke].
    destruct c; reflexivity. }
  assert (R : res (__init__ Demo.env None Demo.boot) = Ret tt)
    by (vm_compute; reflexivity).
  assert (A : args (self (post (__init__ Demo.env None Demo.boot))) = Some Demo.args)
    by (vm_compute; reflexivity).
  split; [exact K|]. split; [exact R|]. split; [exact A|].
  destruct (@symbols_fixed_at_startup bool Demo.env None Demo.args Demo.boot K R A)
    as (_ & _ & H3 & _ & H5 & _).
  split; [exact H3 | exact H5].
Defined.

Lemma visualization_started_iff_enabled_witness :
  constructed (self Demo.ready) = true /\
  (exists v, In (Call ws_controller_connect (Returns v))
                (evs (start Demo.env_viz_fails [Quiet] Demo.ready))) /\
  (called visualizer_start (evs (start Demo.env_viz_fails [Quiet] Demo.ready)) <->
   enable_viz (self Demo.ready) = Some true) /\
  res (start Demo.env_viz_fails [Quiet] Demo.ready) = Halt Asleep.
Proof.
  assert (C : constructed (self Demo.ready) = true) by (vm_compute; reflexivity).
  assert (I : exists v, In (Call ws_controller_connect (Returns v))
                           (evs (start Demo.env_viz_fails [Quiet] Demo.ready)))
    by (exists VNone; vm_compute; tauto).
  split; [exact C|]. split; [exact I|].
  split; [|vm_compute; reflexivity].
  exact (proj1 (@visualization_started_iff_enabled bool Demo.env_viz_fails
                  [Quiet] Demo.ready C I)).
Defined.

Lemma close_only_after_flush_returned_witness :
  In (Call db_manager_flush (Raises (Exception "database is locked")))
     (evs (cleanup Demo.env_flush_fails Demo.ready)) /\
  ~ called db_manager_close (evs (cleanup Demo.env_flush_fails Demo.ready)) /\
  ~ In (print_success "Database closed successfully.")
       (evs (cleanup Demo.env_flush_fails Demo.ready)).
Proof.
  assert (I : In (Call db_manager_flush (Raises (Exception "database is locked")))
                 (evs (cleanup Demo.env_flush_fails Demo.ready)))
    by (vm_compute; tauto).
  split; [exact I|].
  destruct (proj2 (@close_only_after_flush_returned bool Demo.env_flush_fails
                     Demo.ready) _ I) as (H1 & H2 & _).
  split; [exact H1 | exact H2].
Defined.




(** * The further properties at work *)

Lemma init_assigns_and_registers_witness :
  res (__init__ Demo.env None Demo.boot) = Ret tt /\
  constructed (self (post (__init__ Demo.env None Demo.boot))) = true /\
  exit_hooks (post (__init__ Demo.env None Demo.boot)) =
  exit_hooks Demo.boot ++ [cleanup_hook].
Proof.
  assert (R : res (__init__ Demo.env None Demo.boot) = Ret tt)
    by (vm_compute; reflexivity).
  split; [exact R|].
  destruct (@init_assigns_and_registers bool Demo.env None Demo.boot R)
    as (H1 & _ & _ & _ & H5).
  split; [exact H1 | exact H5].
Defined.

Lemma init_failure_registers_nothing_witness :
  res (__init__ Demo.env_no_console None Demo.boot) = Raise (Exception "no terminal") /\
  sigint (post (__init__ Demo.env_no_console None Demo.boot)) = sigint Demo.boot /\
  exit_hooks (post (__init__ Demo.env_no_console None Demo.boot)) =
  exit_hooks Demo.boot.
Proof.
  assert (R : res (__init__ Demo.env_no_console None Demo.boot)
              = Raise (Exception "no terminal")) by (vm_compute; reflexivity).
  split; [exact R|].
  destruct (@init_failure_registers_nothing bool Demo.env_no_console None
              Demo.boot _ R) as (H1 & _ & H3 & _).
  split; [exact H1 | exact H3].
Defined.

Lemma demo_keeps_symbols (failing : call -> option exn) :
  keeps_symbols (Demo.collab failing).
Proof.
  intros c [e l]. unfold Demo.collab, Demo.replies. cbn [invoke].
  destruct (failing c); [reflexivity|]. destruct c; reflexivity.
Qed.

Lemma init_construction_order_witness :
  keeps_symbols Demo.env /\
  res (__init__ Demo.env (Some Demo.args) Demo.boot) = Ret tt /\
  calls (evs (__init__ Demo.env (Some Demo.args) Demo.boot)) =
  construction_order Demo.env Demo.args.
Proof.
  assert (R : res (__init__ Demo.env (Some Demo.args) Demo.boot) = Ret tt)
    by (vm_compute; reflexivity).
  split; [apply demo_keeps_symbols|]. split; [exact R|].
  exact (proj2 (@init_construction_order bool Demo.env Demo.args Demo.boot
                  (demo_keeps_symbols _)) R).
Defined.

Lemma startup_failure_leaves_start_witness :
  In (Call ws_controller_connect (Raises (Exception "connection refused")))
     (evs (startup Demo.env_connect_fails
             (post (__init__ Demo.env_connect_fails None Demo.boot)))) /\
  res (start Demo.env_connect_fails [Quiet]
         (post (__init__ Demo.env_connect_fails None Demo.boot)))
  = Raise (Exception "connection refused").
Proof.
  assert (I : In (Call ws_controller_connect (Raises (Exception "connection refused")))
                 (evs (startup Demo.env_connect_fails
                         (post (__init__ Demo.env_connect_fails None Demo.boot)))))
    by (vm_compute; tauto).
  split; [exact I|].
  exact (proj1 (@startup_failure_leaves_start bool Demo.env_connect_fails
                  [Quiet] _ _ _ I)).
Defined.

Lemma keep_alive_ends_at_first_event_witness :
  Throw KeyboardInterrupt <> Quiet /\
  keep_alive Demo.env (repeat Quiet 2 ++ Throw KeyboardInterrupt :: [Quiet]) Demo.ready =
  Out (res (sleep Demo.env (Throw KeyboardInterrupt) Demo.ready))
      (post (sleep Demo.env (Throw KeyboardInterrupt) Demo.ready))
      (repeat (time_sleep Quiet) 2 ++
       evs (sleep Demo.env (Throw KeyboardInterrupt) Demo.ready)).
Proof.
  assert (H : Throw KeyboardInterrupt <> Quiet) by discriminate.
  split; [exact H|].
  exact (proj1 (proj2 (@keep_alive_ends_at_first_event bool Demo.env 2
                         (Throw KeyboardInterrupt) [Quiet] Demo.ready H))).
Defined.

Lemma loop_exception_runs_cleanup_witness :
  console_view (self Demo.ready) <> None /\
  res (keep_main_thread_alive Demo.env
         (repeat Quiet 1 ++ Throw KeyboardInterrupt :: []) Demo.ready) =
  match res (cleanup Demo.env Demo.ready) with
  | Ret _ => if is_KeyboardInterrupt KeyboardInterrupt
             then Ret tt else Raise KeyboardInterrupt
  | r => r
  end.
Proof.
  assert (H : console_view (self Demo.ready) <> None)
    by (vm_compute; discriminate).
  split; [exact H|].
  exact (proj2 (@loop_exception_runs_cleanup bool Demo.env 1 KeyboardInterrupt
                  [] Demo.ready H)).
Defined.

Lemma cleanup_aborted_by_non_Exception_witness :
  In (Call ws_controller_close (Raises KeyboardInterrupt))
     (evs (cleanup Demo.env_close_interrupted Demo.ready)) /\
  is_Exception KeyboardInterrupt = false /\
  res (cleanup Demo.env_close_interrupted Demo.ready) = Raise KeyboardInterrupt.
Proof.
  assert (I : In (Call ws_controller_close (Raises KeyboardInterrupt))
                 (evs (cleanup Demo.env_close_interrupted Demo.ready)))
    by (vm_compute; tauto).
  split; [exact I|]. split; [reflexivity|].
  exact (proj1 (@cleanup_aborted_by_non_Exception bool Demo.env_close_interrupted
                  Demo.ready _ _ I eq_refl)).
Defined.

Lemma failed_construction_ends_process_witness :
  exit_hooks Demo.boot = [] /\
  res (__init__ Demo.env_no_console None (new_instance Demo.boot))
  = Raise (Exception "no terminal") /\
  status (run Demo.env_no_console [Quiet] Demo.boot)
  = Uncaught (Exception "no terminal").
Proof.
  assert (R : res (__init__ Demo.env_no_console None (new_instance Demo.boot))
              = Raise (Exception "no terminal")) by (vm_compute; reflexivity).
  split; [reflexivity|]. split; [exact R|].
  exact (proj1 (proj2 (@failed_construction_ends_process bool Demo.env_no_console
                         [Quiet] Demo.boot _ eq_refl R))).
Defined.

Lemma exit_runs_cleanup_again_witness :
  exit_hooks Demo.boot = [] /\
  res (__init__ Demo.env None (new_instance Demo.boot)) = Ret tt /\
  (forall h, res (main Demo.env [Quiet; Throw KeyboardInterrupt] Demo.boot)
             <> Halt h) /\
  trace (run Demo.env [Quiet; Throw KeyboardInterrupt] Demo.boot) =
  evs (main Demo.env [Quiet; Throw KeyboardInterrupt] Demo.boot) ++
  evs (cleanup Demo.env
         (post (main Demo.env [Quiet; Throw KeyboardInterrupt] Demo.boot))).
Proof.
  assert (R : res (__init__ Demo.env None (new_instance Demo.boot)) = Ret tt)
    by (vm_compute; reflexivity).
  assert (N : forall h, res (main Demo.env [Quiet; Throw KeyboardInterrupt] Demo.boot)
                        <> Halt h)
    by (intros h; vm_compute; discriminate).
  split; [reflexivity|]. split; [exact R|]. split; [exact N|].
  exact (proj1 (proj2 (@exit_runs_cleanup_again bool Demo.env
                         [Quiet; Throw KeyboardInterrupt] Demo.boot eq_refl R N))).
Defined.

Lemma start_banner_shows_configuration_witness :
  keeps_symbols Demo.env /\
  res (__init__ Demo.env None Demo.boot) = Ret tt /\
  args (self (post (__init__ Demo.env None Demo.boot))) = Some Demo.args /\
  exists rest,
    evs (start Demo.env [Quiet] (post (__init__ Demo.env None Demo.boot))) =
    print_info ("Starting Cryptocurrency Market Monitor with database: "
                ++ Args.db_name Demo.args) true
    :: print_info ("Tracking symbols: "
                   ++ join ", " (map upper (Args.symbols Demo.args))) true
    :: rest.
Proof.
  assert (R : res (__init__ Demo.env None Demo.boot) = Ret tt)
    by (vm_compute; reflexivity).
  assert (A : args (self (post (__init__ Demo.env None Demo.boot))) = Some Demo.args)
    by (vm_compute; reflexivity).
  split; [apply demo_keeps_symbols|]. split; [exact R|]. split; [exact A|].
  exact (@start_banner_shows_configuration bool Demo.env None Demo.args [Quiet]
           Demo.boot (demo_keeps_symbols _) R A).
Defined.

Lemma failed_visualization_is_not_fatal_witness :
  In (Call visualizer_start (Returns (VBool false)))
     (evs (startup Demo.env_viz_fails
             (post (__init__ Demo.env_viz_fails None Demo.boot)))) /\
  truthy (VBool false) = false /\
  exists pre,
    evs (start Demo.env_viz_fails [Quiet]
           (post (__init__ Demo.env_viz_fails None Demo.boot))) =
    pre ++ [Call visualizer_start (Returns (VBool false));
            print_error "Failed to start visualization. Make sure you have required packages installed.";
            print_info help_line true]
        ++ evs (keep_main_thread_alive Demo.env_viz_fails [Quiet]
                  (post (startup Demo.env_viz_fails
                           (post (__init__ Demo.env_viz_fails None Demo.boot))))).
Proof.
  assert (I : In (Call visualizer_start (Returns (VBool false)))
                 (evs (startup Demo.env_viz_fails
                         (post (__init__ Demo.env_viz_fails None Demo.boot)))))
    by (vm_compute; tauto).
  split; [exact I|]. split; [reflexivity|].
  exact (@failed_visualization_is_not_fatal bool Demo.env_viz_fails [Quiet]
           _ _ I eq_refl).
Defined.

Lemma cleanup_raises_only_from_teardown_witness :
  console_view (self Demo.ready) <> None /\
  res (cleanup Demo.env_close_interrupted Demo.ready) = Raise KeyboardInterrupt /\
  is_Exception KeyboardInterrupt = false.
Proof.
  assert (H : console_view (self Demo.ready) <> None)
    by (vm_compute; discriminate).
  assert (R : res (cleanup Demo.env_close_interrupted Demo.ready)
              = Raise KeyboardInterrupt) by (vm_compute; reflexivity).
  split; [exact H|]. split; [exact R|].
  exact (proj1 (@cleanup_raises_only_from_teardown bool Demo.env_close_interrupted
                  Demo.ready _ H R)).
Defined.

Lemma loop_signal_runs_cleanup_twice_witness :
  handler_of SIGTERM Demo.ready = signal_handler_closure /\
  res (cleanup Demo.env Demo.ready) = Ret tt /\
  res (keep_main_thread_alive Demo.env
         (repeat Quiet 1 ++ Deliver SIGTERM :: []) Demo.ready) =
  match res (cleanup Demo.env (post (cleanup Demo.env Demo.ready))) with
  | Ret _ => Raise (SystemExit 0)
  | r => r
  end.
Proof.
  assert (H : handler_of SIGTERM Demo.ready = signal_handler_closure)
    by (vm_compute; reflexivity).
  assert (R : res (cleanup Demo.env Demo.ready) = Ret tt)
    by (vm_compute; reflexivity).
  split; [exact H|]. split; [exact R|].
  exact (proj2 (@loop_signal_runs_cleanup_twice bool Demo.env 1 SIGTERM []
                  Demo.ready H R)).
Defined.
